(** * enhance-dashboards.py: the dashboard enhancement script

    A shallow embedding of [scripts/enhance-dashboards.py] and the
    properties of its apply routine.

    - Python [str] values are sequences of Unicode code points
      ([pystr], a list of [N]); the string methods the script calls
      ([in], [replace], [split], [strip]) are functions on lists.
    - Values returned by [json.load] are the inductive type [json];
      a Python [dict] keeps its insertion order and is an association
      list with the dictionary's update-in-place-or-append assignment.
    - A Python exception is [None] in the option monad: the script never
      inspects the exception, [main] catches every [Exception] alike.
    - The dashboards directory is a finite map from file names to file
      contents, and what the script prints is a list of events.
    - [repr] of a string, which f-strings reach through lists and dicts,
      is a parameter ([StrRepr]). *)

From Stdlib Require Import ZArith String Ascii DecimalString.
From stdpp Require Import base option list gmap.

Open Scope string_scope.
Open Scope list_scope.

(** ** Sequences: the string methods used by the script *)

Section Seq.
Context {A : Type} `{EqDecision A}.
Implicit Types (s t old new sep : list A) (c : A).

(** [s.startswith(p)] *)
Fixpoint starts_with (p s : list A) : bool :=
  match p, s with
  | [], _ => true
  | _ :: _, [] => false
  | a :: p', b :: s' => bool_decide (a = b) && starts_with p' s'
  end.

(** [p in s] for two strings: [p] occurs in [s] as a contiguous block. *)
Fixpoint contains (p s : list A) : bool :=
  starts_with p s ||
  match s with
  | [] => false
  | _ :: s' => contains p s'
  end.

(** [s.replace(old, new, 1)]: only the leftmost occurrence. *)
Fixpoint replace_first (old new s : list A) : list A :=
  if starts_with old s then new ++ drop (length old) s
  else match s with
       | [] => []
       | c :: s' => c :: replace_first old new s'
       end.

(** The scan of [s.replace(old, new)] for a non-empty [old]: left to
    right, non-overlapping; [skip] counts the characters of a matched
    occurrence that are still to be passed over. *)
Fixpoint replace_scan (old new : list A) (skip : nat) (s : list A) : list A :=
  match s with
  | [] => []
  | c :: s' =>
      match skip with
      | S k => replace_scan old new k s'
      | O => if starts_with old s
             then new ++ replace_scan old new (length old - 1) s'
             else c :: replace_scan old new 0 s'
      end
  end.

(** [s.replace(old, new)]; an empty [old] matches before every character
    and at the end. *)
Definition replace_all (old new s : list A) : list A :=
  match old with
  | [] => new ++ flat_map (fun c => c :: new) s
  | _ :: _ => replace_scan old new 0 s
  end.

(** [s.split(sep)] for a separator of one character. *)
Fixpoint split_on (c : A) (s : list A) : list (list A) :=
  match s with
  | [] => [[]]
  | x :: s' =>
      if bool_decide (x = c) then [] :: split_on c s'
      else match split_on c s' with
           | h :: t => (x :: h) :: t
           | [] => [[x]]
           end
  end.

(** [sep.join(segs)]; the script does not call it, the properties of
    [replace_all] are stated with it. *)
Fixpoint join (sep : list A) (segs : list (list A)) : list A :=
  match segs with
  | [] => []
  | [s] => s
  | s :: rest => s ++ sep ++ join sep rest
  end.

(** [p] occurs in [s]. *)
Definition infix_of (p s : list A) : Prop := ∃ u v, s = u ++ p ++ v.

End Seq.

(** ** Python strings *)

Abbreviation pystr := (list N).

(** A literal of the script, as code points. *)
Definition u (s : string) : pystr := map N_of_ascii (list_ascii_of_string s).

(** [str.isspace] on one code point: the Unicode white space. *)
Definition is_space (c : N) : bool :=
  ((9 <=? c) && (c <=? 13) || (28 <=? c) && (c <=? 32) ||
   (c =? 133) || (c =? 160) || (c =? 5760) ||
   (8192 <=? c) && (c <=? 8202) || (c =? 8232) || (c =? 8233) ||
   (c =? 8239) || (c =? 8287) || (c =? 12288))%N.

(** [s.lstrip()], [s.rstrip()] and [s.strip()] *)
Fixpoint lstrip (s : pystr) : pystr :=
  match s with
  | [] => []
  | c :: s' => if is_space c then lstrip s' else s
  end.

Definition rstrip (s : pystr) : pystr := reverse (lstrip (reverse s)).

Definition strip (s : pystr) : pystr := rstrip (lstrip s).

(** [str(z)] for an [int] *)
Definition str_of_int (z : Z) : pystr := u (NilZero.string_of_int (Z.to_int z)).

(** A literal of the script that contains double quotes, written here
    with an apostrophe for each of them (no literal of the script
    contains an apostrophe). *)
Definition uq (s : string) : pystr :=
  map (fun c => if (c =? 39)%N then 34%N else c) (u s).

(** ** Values of [json.load] *)

#[warnings="-register-all"]
Inductive json : Type :=
| JNull
| JBool (b : bool)
| JInt (z : Z)
| JFloat (r : pystr)   (* a float, identified by its [repr] *)
| JStr (s : pystr)
| JArr (l : list json)
| JObj (kvs : list (pystr * json)).

(** A [dict]: keys in insertion order. *)
Abbreviation dict := (list (list N * json)).

Fixpoint dict_get (k : pystr) (d : dict) : option json :=
  match d with
  | [] => None
  | (k', v) :: d' => if decide (k = k') then Some v else dict_get k d'
  end.

(** [d[k] = v]: an existing key keeps its place, a new key goes last. *)
Fixpoint dict_set (k : pystr) (v : json) (d : dict) : dict :=
  match d with
  | [] => [(k, v)]
  | (k', v') :: d' =>
      if decide (k = k') then (k, v) :: d' else (k', v') :: dict_set k v d'
  end.

(** ** The operators and methods the script applies to loaded values;
    [None] is a raised [TypeError], [AttributeError] or [KeyError]. *)

Definition is_str (x : pystr) (v : json) : bool :=
  match v with
  | JStr s => bool_decide (s = x)
  | _ => false
  end.

(** [x in v] for a string [x] *)
Definition py_in (x : pystr) (v : json) : option bool :=
  match v with
  | JStr s => Some (contains x s)
  | JArr l => Some (existsb (is_str x) l)
  | JObj d => Some (bool_decide (is_Some (dict_get x d)))
  | _ => None
  end.

(** [v[k]] for a string [k] *)
Definition py_getitem (v : json) (k : pystr) : option json :=
  match v with
  | JObj d => dict_get k d
  | _ => None
  end.

(** [v.get(k, dflt)] *)
Definition py_get (v : json) (k : pystr) (dflt : json) : option json :=
  match v with
  | JObj d => Some (default dflt (dict_get k d))
  | _ => None
  end.

(** [v[k] = x] for a string [k] *)
Definition py_setitem (v : json) (k : pystr) (x : json) : option json :=
  match v with
  | JObj d => Some (JObj (dict_set k x d))
  | _ => None
  end.

(** The receiver of a [str] method. *)
Definition py_str (v : json) : option pystr :=
  match v with
  | JStr s => Some s
  | _ => None
  end.

(** Truth value of [v], as [not v] and [if v] take it. *)
Definition py_truth (v : json) : bool :=
  match v with
  | JNull => false
  | JBool b => b
  | JInt z => negb (z =? 0)%Z
  | JFloat r => negb (bool_decide (r = u "0.0") || bool_decide (r = u "-0.0"))
  | JStr s => negb (bool_decide (s = []))
  | JArr l => negb (bool_decide (l = []))
  | JObj d => negb (bool_decide (d = []))
  end.

(** [for item in v: body(item)] where [body] may assign into [item].
    A list yields its elements, which the body updates in place; a string
    yields its characters and a dict its keys, which are immutable. *)
Definition for_each (body : json → option json) (v : json) : option json :=
  match v with
  | JArr l => JArr <$> mapM body l
  | JStr s => _ ← mapM body ((λ c, JStr [c]) <$> s); Some v
  | JObj d => _ ← mapM body ((λ kv, JStr kv.1) <$> d); Some v
  | _ => None
  end.

(** [repr] of a [str]: the quoting and escaping of the interpreter, which
    depends on the Unicode character database. *)
Class StrRepr := str_repr : pystr → pystr.

Section Format.
Context `{StrRepr}.

(** [repr(v)] *)
Fixpoint py_repr (v : json) : pystr :=
  match v with
  | JNull => u "None"
  | JBool true => u "True"
  | JBool false => u "False"
  | JInt z => str_of_int z
  | JFloat r => r
  | JStr s => str_repr s
  | JArr l => u "[" ++ join (u ", ") (map py_repr l) ++ u "]"
  | JObj d =>
      u "{" ++
      join (u ", ") (map (λ kv, str_repr kv.1 ++ u ": " ++ py_repr kv.2) d) ++
      u "}"
  end.

(** [f"{v}"]: [format(v, "")], which is [str(v)]. *)
Definition py_format (v : json) : pystr :=
  match v with
  | JStr s => s
  | _ => py_repr v
  end.
End Format.

(** ** The configuration table *)

Record link_config : Type := {
  title : pystr;
  url : pystr;
  tooltip : pystr
}.

(** One entry of [DASHBOARD_CONFIGS]; [specific_variables] is read with
    [config.get("specific_variables", [])] and may be absent. *)
Record config : Type := {
  specific_variables : option (list json);
  drill_down_links : list link_config;
  alert_filter : pystr
}.

Definition query_variable (name query label description : pystr) : json :=
  JObj [(u "name", JStr name);
        (u "type", JStr (u "query"));
        (u "query", JStr query);
        (u "label", JStr label);
        (u "description", JStr description);
        (u "includeAll", JBool true);
        (u "multi", JBool true)].

Definition overview_link : link_config :=
  {| title := u "Overview Dashboard";
     url := u "/d/overview?var-namespace=$namespace&from=$__from&to=$__to";
     tooltip := u "Return to overview dashboard" |}.

Definition message_processing_config : config :=
  {| specific_variables := Some
       [query_variable (u "queue")
          (uq "label_values(birthday_scheduler_queue_depth{namespace='$namespace', instance=~'$instance'}, queue_name)")
          (u "Queue") (u "Filter by queue name")];
     drill_down_links :=
       [ {| title := u "Database Dashboard";
            url := u "/d/database?var-namespace=$namespace&var-instance=$instance&from=$__from&to=$__to";
            tooltip := u "View database metrics for queue persistence" |};
         overview_link ];
     alert_filter := u "QueueDepthCritical|DLQMessagesPresent|HighMessageRetryRate|MessageProcessingSlow|MessageDeliveryRate|MessageSuccessRate" |}.

Definition database_config : config :=
  {| specific_variables := Some
       [query_variable (u "table")
          (uq "label_values(birthday_scheduler_database_query_duration_seconds_bucket{namespace='$namespace', instance=~'$instance'}, table)")
          (u "Table") (u "Filter by table name")];
     drill_down_links :=
       [ {| title := u "Infrastructure Dashboard";
            url := u "/d/infrastructure?var-namespace=$namespace&var-instance=$instance&from=$__from&to=$__to";
            tooltip := u "View system resource impact on database" |};
         overview_link ];
     alert_filter := u "DBConnectionPoolExhausted|DatabaseDown|DBConnectionPoolHigh|SlowQueries|DatabaseQueryLatency" |}.

Definition infrastructure_config : config :=
  {| specific_variables := Some
       [query_variable (u "node")
          (uq "label_values(birthday_scheduler_process_cpu_seconds_total{namespace='$namespace'}, instance)")
          (u "Node") (u "Filter by node/server")];
     drill_down_links := [ overview_link ];
     alert_filter := u "ServiceDown|MemoryExhausted|CPUUsageHigh|MemoryUsageHigh|EventLoopLagHigh|HighGCPauseTime" |}.

Definition overview_config : config :=
  {| specific_variables := Some [];
     drill_down_links :=
       [ {| title := u "API Performance";
            url := u "/d/api-performance?var-namespace=$namespace&from=$__from&to=$__to";
            tooltip := u "View detailed API metrics" |};
         {| title := u "Message Processing";
            url := u "/d/message-processing?var-namespace=$namespace&from=$__from&to=$__to";
            tooltip := u "View message queue metrics" |};
         {| title := u "Database";
            url := u "/d/database?var-namespace=$namespace&from=$__from&to=$__to";
            tooltip := u "View database performance" |};
         {| title := u "Infrastructure";
            url := u "/d/infrastructure?var-namespace=$namespace&from=$__from&to=$__to";
            tooltip := u "View infrastructure health" |};
         {| title := u "Security";
            url := u "/d/security?var-namespace=$namespace&from=$__from&to=$__to";
            tooltip := u "View security metrics" |} ];
     alert_filter := u ".*" |}.

Definition security_config : config :=
  {| specific_variables := Some [];
     drill_down_links :=
       [ overview_link;
         {| title := u "API Performance";
            url := u "/d/api-performance?var-namespace=$namespace&from=$__from&to=$__to";
            tooltip := u "View API security details" |} ];
     alert_filter := u "SecurityBreach|UnauthorizedAccess|HighFailedLogins|RateLimitExceeded" |}.

(** The table, in the order of the source. *)
Definition DASHBOARD_CONFIGS : list (pystr * config) :=
  [ (u "message-processing.json", message_processing_config);
    (u "database.json", database_config);
    (u "infrastructure.json", infrastructure_config);
    (u "overview-dashboard.json", overview_config);
    (u "security.json", security_config) ].

(** ** The pieces merged into every dashboard *)

Definition current (text value : pystr) : json :=
  JObj [(u "text", JStr text); (u "value", JStr value)].

Definition interval_option (t : pystr) (selected : bool) : json :=
  JObj [(u "text", JStr t); (u "value", JStr t); (u "selected", JBool selected)].

Definition get_common_variables : list json :=
  [ JObj [(u "name", JStr (u "datasource"));
          (u "type", JStr (u "datasource"));
          (u "query", JStr (u "prometheus"));
          (u "current", current (u "Prometheus") (u "Prometheus"));
          (u "hide", JInt 0);
          (u "includeAll", JBool false);
          (u "multi", JBool false);
          (u "options", JArr []);
          (u "refresh", JInt 1);
          (u "regex", JStr (u ""));
          (u "skipUrlSync", JBool false)];
    JObj [(u "name", JStr (u "namespace"));
          (u "type", JStr (u "query"));
          (u "datasource", JStr (u "${datasource}"));
          (u "query", JStr (u "label_values(birthday_scheduler_api_requests_total, namespace)"));
          (u "current", current (u "production") (u "production"));
          (u "hide", JInt 0);
          (u "includeAll", JBool false);
          (u "multi", JBool false);
          (u "options", JArr []);
          (u "refresh", JInt 1);
          (u "regex", JStr (u ""));
          (u "skipUrlSync", JBool false);
          (u "sort", JInt 1);
          (u "label", JStr (u "Namespace"));
          (u "description", JStr (u "Kubernetes namespace filter"))];
    JObj [(u "name", JStr (u "instance"));
          (u "type", JStr (u "query"));
          (u "datasource", JStr (u "${datasource}"));
          (u "query", JStr (uq "label_values(birthday_scheduler_api_requests_total{namespace='$namespace'}, instance)"));
          (u "current", current (u "All") (u "$__all"));
          (u "hide", JInt 0);
          (u "includeAll", JBool true);
          (u "multi", JBool true);
          (u "options", JArr []);
          (u "refresh", JInt 1);
          (u "regex", JStr (u ""));
          (u "skipUrlSync", JBool false);
          (u "sort", JInt 1);
          (u "label", JStr (u "Instance"));
          (u "description", JStr (u "Filter by instance/pod"))];
    JObj [(u "name", JStr (u "interval"));
          (u "type", JStr (u "interval"));
          (u "query", JStr (u "1m,5m,10m,30m,1h"));
          (u "current", current (u "5m") (u "5m"));
          (u "hide", JInt 0);
          (u "includeAll", JBool false);
          (u "multi", JBool false);
          (u "options", JArr [interval_option (u "1m") false;
                              interval_option (u "5m") true;
                              interval_option (u "10m") false;
                              interval_option (u "30m") false;
                              interval_option (u "1h") false]);
          (u "label", JStr (u "Interval"));
          (u "description", JStr (u "Time aggregation interval"))] ].

(** The [expr] of the alert annotation: the f-string of
    [create_annotations]. *)
Definition alerts_expr (alert_filter : pystr) : pystr :=
  uq "ALERTS{alertname=~'" ++ alert_filter ++ uq "', namespace='$namespace'}".

Definition alert_annotation (alert_filter : pystr) : json :=
  JObj [(u "datasource", JStr (u "${datasource}"));
        (u "enable", JBool true);
        (u "expr", JStr (alerts_expr alert_filter));
        (u "iconColor", JStr (u "rgba(255, 96, 96, 1)"));
        (u "name", JStr (u "Alerts"));
        (u "step", JStr (u "60s"));
        (u "tagKeys", JStr (u "alertname,severity"));
        (u "textFormat", JStr (u "{{alertname}}: {{severity}}"));
        (u "titleFormat", JStr (u "Alert"))].

Definition create_annotations (alert_filter : pystr) : json :=
  JObj [(u "list", JArr [alert_annotation alert_filter])].

Definition create_link (link : link_config) : json :=
  JObj [(u "title", JStr (title link));
        (u "url", JStr (url link));
        (u "icon", JStr (u "dashboard"));
        (u "tooltip", JStr (tooltip link));
        (u "type", JStr (u "link"));
        (u "targetBlank", JBool false)].

Definition create_links (drill_down_config : list link_config) : json :=
  JArr (map create_link drill_down_config).

(** ** [update_panel_queries] *)

(** The text inserted after the first brace. *)
Definition brace_filters : pystr :=
  uq "{namespace='$namespace', instance=~'$instance', ".

(** The label set appended to the metric name. *)
Definition label_set : pystr :=
  uq "{namespace='$namespace', instance=~'$instance'}".

(** Lines 280 to 287: the body of [if "namespace=" not in expr and
    "birthday_scheduler_" in expr]. *)
Definition add_namespace_filter (expr : pystr) : pystr :=
  let expr1 :=
    replace_first (u "birthday_scheduler_") (u "birthday_scheduler_") expr in
  let expr2 := replace_first (u "{") brace_filters expr1 in
  if negb (contains (u "{") expr2) then
    let metric_parts := split_on 91%N expr2 in              (* split("[") *)
    if (0 <? length metric_parts)%nat then
      let metric_name :=
        strip (List.last (split_on 40%N (nth 0 metric_parts [])) []) in
      replace_all metric_name (metric_name ++ label_set) expr2
    else expr2
  else expr2.

(** Lines 276 to 290: the new value of [expr]. *)
Definition update_expr (expr : json) : option pystr :=
  has_namespace ← py_in (u "namespace=") expr;
  add ← (if has_namespace : bool then Some false
         else py_in (u "birthday_scheduler_") expr);
  s ← py_str expr;
  let s1 := if add : bool then add_namespace_filter s else s in
  Some (replace_all (u "[5m]") (u "[$interval]") s1).

(** The body of [for target in panel["targets"]]. *)
Definition update_target (target : json) : option json :=
  has_expr ← py_in (u "expr") target;
  if has_expr : bool then
    expr ← py_getitem target (u "expr");
    expr' ← update_expr expr;
    target1 ← py_setitem target (u "expr") (JStr expr');
    has_ref ← py_in (u "refId") target1;
    if has_ref : bool then Some target1
    else py_setitem target1 (u "refId") (JStr (u "A"))
  else Some target.

(** ** The dashboards directory and the standard output *)

Inductive file_content : Type :=
| Unparsable                 (* [open] or [json.load] raises *)
| Document (data : json).

Inductive event : Type :=
| DirectoryNotFound
| Started
| Enhancing (name : pystr)
| Enhanced (name : pystr)
| NotFound (name : pystr)
| ErrorEnhancing (name : pystr)
| Completed.

Record world : Type := {
  files : gmap pystr file_content;
  stdout : list event
}.

Definition print (e : event) (w : world) : world :=
  {| files := files w; stdout := stdout w ++ [e] |}.

Definition write (name : pystr) (data : json) (w : world) : world :=
  {| files := <[name := Document data]> (files w); stdout := stdout w |}.

Section Apply.
Context `{StrRepr}.

(** The f-string of line 300. *)
Definition default_description (panel : json) : option pystr :=
  id ← py_get panel (u "id") (JStr (u ""));
  title ← py_get panel (u "title") (JStr (u "No title"));
  Some (u "Panel " ++ py_format id ++ u ": " ++ py_format title).

(** The body of [for panel in panels]. *)
Definition update_panel (panel : json) : option json :=
  has_targets ← py_in (u "targets") panel;
  panel1 ← (if has_targets : bool then
              targets ← py_getitem panel (u "targets");
              targets' ← for_each update_target targets;
              py_setitem panel (u "targets") targets'
            else Some panel);
  has_description ← py_in (u "description") panel1;
  missing ← (if has_description : bool then
               description ← py_getitem panel1 (u "description");
               Some (negb (py_truth description))
             else Some true);
  if missing : bool then
    description ← default_description panel1;
    py_setitem panel1 (u "description") (JStr description)
  else Some panel1.

(** The panels after the call: Python updates them in place, the
    embedding returns them. *)
Definition update_panel_queries (panels : json) (dashboard_name : pystr)
  : option json :=
  for_each update_panel panels.

(** ** [enhance_dashboard] *)

(** Lines 244 to 262, from the loaded document to the document that is
    written back. *)
Definition enhance (dashboard_name : pystr) (cfg : config) (data : json)
  : option json :=
  dashboard ← py_get data (u "dashboard") (JObj []);
  let variables :=
    get_common_variables ++ default [] (specific_variables cfg) in
  dashboard1 ← py_setitem dashboard (u "templating")
                 (JObj [(u "list", JArr variables)]);
  dashboard2 ← py_setitem dashboard1 (u "links")
                 (create_links (drill_down_links cfg));
  dashboard3 ← py_setitem dashboard2 (u "annotations")
                 (create_annotations (alert_filter cfg));
  has_panels ← py_in (u "panels") dashboard3;
  panels ← py_get dashboard3 (u "panels") (JArr []);
  panels' ← update_panel_queries panels dashboard_name;
  (* [panels] is the object stored in the dashboard, unless it is the
     default of [get] *)
  dashboard4 ← (if has_panels : bool
                then py_setitem dashboard3 (u "panels") panels'
                else Some dashboard3);
  py_setitem data (u "dashboard") dashboard4.

(** [enhance_dashboard(dashboard_path, config)]; [false] when it raises. *)
Definition enhance_dashboard (name : pystr) (cfg : config) (w : world)
  : world * bool :=
  let w1 := print (Enhancing name) w in
  match files w1 !! name with
  | Some (Document data) =>
      match enhance name cfg data with
      | Some data' => (print (Enhanced name) (write name data' w1), true)
      | None => (w1, false)
      end
  | _ => (w1, false)
  end.

(** One iteration of the loop of [main]. *)
Definition main_step (w : world) (entry : pystr * config) : world :=
  let '(dashboard_file, cfg) := entry in
  if bool_decide (is_Some (files w !! dashboard_file)) then
    let '(w1, ok) := enhance_dashboard dashboard_file cfg w in
    if ok then w1 else print (ErrorEnhancing dashboard_file) w1
  else print (NotFound dashboard_file) w.

Definition main_loop (table : list (pystr * config)) (w : world) : world :=
  foldl main_step w table.

(** [main]: the directory is [None] when it does not exist; the result
    is the exit status with the directory and the output. *)
Definition main (dir : option (gmap pystr file_content))
  : Z * option (gmap pystr file_content) * list event :=
  match dir with
  | None => (1%Z, None, [DirectoryNotFound])
  | Some fs =>
      let w := main_loop DASHBOARD_CONFIGS
                 (print Started {| files := fs; stdout := [] |}) in
      (0%Z, Some (files w), stdout w ++ [Completed])
  end.
End Apply.

(** ** Vocabulary of the properties *)

(** The text the script takes for the metric name (line 286). *)
Definition metric_name (e : pystr) : pystr :=
  strip (List.last (split_on 40%N (nth 0 (split_on 91%N e) [])) []).

(** Line 290. *)
Definition replace_window (e : pystr) : pystr :=
  replace_all (u "[5m]") (u "[$interval]") e.

Definition needs_filter (e : pystr) : bool :=
  negb (contains (u "namespace=") e) && contains (u "birthday_scheduler_") e.

(** The expression when it reaches line 290. *)
Definition filtered (e : pystr) : pystr :=
  if needs_filter e then add_namespace_filter e else e.

(** The expression stored back in the target. *)
Definition new_expr (e : pystr) : pystr := replace_window (filtered e).

Definition with_ref_id (d : dict) : dict :=
  if bool_decide (is_Some (dict_get (u "refId") d)) then d
  else dict_set (u "refId") (JStr (u "A")) d.

Definition needs_description (d : dict) : bool :=
  match dict_get (u "description") d with
  | Some v => negb (py_truth v)
  | None => true
  end.

Definition description_text `{StrRepr} (d : dict) : pystr :=
  u "Panel " ++ py_format (default (JStr (u "")) (dict_get (u "id") d)) ++
  u ": " ++ py_format (default (JStr (u "No title")) (dict_get (u "title") d)).

Definition with_description `{StrRepr} (d : dict) : dict :=
  if needs_description d
  then dict_set (u "description") (JStr (description_text d)) d
  else d.

Definition templating (cfg : config) : json :=
  JObj [(u "list",
         JArr (get_common_variables ++ default [] (specific_variables cfg)))].

Definition merged (cfg : config) (d : dict) : dict :=
  dict_set (u "annotations") (create_annotations (alert_filter cfg))
    (dict_set (u "links") (create_links (drill_down_links cfg))
       (dict_set (u "templating") (templating cfg) d)).

Definition dashboard_of (data : json) : option json :=
  py_get data (u "dashboard") (JObj []).

(** [v'] differs from [v] at most in the values of [keys]; a value that
    is not an object is the same. *)
Definition changes_only (keys : list pystr) (v v' : json) : Prop :=
  match v, v' with
  | JObj d, JObj d' => ∀ k, k ∉ keys → dict_get k d' = dict_get k d
  | _, _ => v' = v
  end.

(** A list keeps its length and its elements are related by [R], in
    order; any other value is the same. *)
Definition elementwise (R : json → json → Prop) (v v' : json) : Prop :=
  match v with
  | JArr l => ∃ l', v' = JArr l' ∧ Forall2 R l l'
  | _ => v' = v
  end.

(** The values of key [k] are related by [R]; an absent key stays absent. *)
Definition at_key (k : pystr) (R : json → json → Prop) (v v' : json) : Prop :=
  match py_getitem v k with
  | Some x => ∃ x', py_getitem v' k = Some x' ∧ R x x'
  | None => py_getitem v' k = None
  end.

Definition target_frame : json → json → Prop :=
  changes_only [u "expr"; u "refId"].

Definition panel_frame (p p' : json) : Prop :=
  changes_only [u "targets"; u "description"] p p' ∧
  at_key (u "targets") (elementwise target_frame) p p'.

Definition dashboard_frame (v v' : json) : Prop :=
  changes_only [u "templating"; u "links"; u "annotations"; u "panels"] v v' ∧
  at_key (u "panels") (elementwise panel_frame) v v'.

(** A target with an [expr] has a [refId]: the one it had, or ["A"]. *)
Definition target_post (t t' : json) : Prop :=
  ∀ d', t' = JObj d' → is_Some (dict_get (u "expr") d') →
    ∃ d, t = JObj d ∧
      dict_get (u "refId") d'
      = Some (default (JStr (u "A")) (dict_get (u "refId") d)).

(** A panel has a description with a true truth value: the one it had,
    or the default text when it had none or an empty one. *)
Definition panel_post `{StrRepr} (p p' : json) : Prop :=
  ∃ d d', p = JObj d ∧ p' = JObj d' ∧
    (∃ v, dict_get (u "description") d' = Some v ∧ py_truth v = true) ∧
    (needs_description d = true →
     dict_get (u "description") d' = Some (JStr (description_text d))) ∧
    (needs_description d = false →
     dict_get (u "description") d' = dict_get (u "description") d) ∧
    at_key (u "targets") (elementwise target_post) p p'.

(** The files [main] visits, in the order of its output. *)
Definition visits (out : list event) : list pystr :=
  omap (λ e, match e with
             | Enhancing name | NotFound name => Some name
             | _ => None
             end) out.

(** What becomes of one file, from its content alone, and what is
    printed for it. *)
Definition outcome `{StrRepr} (name : pystr) (cfg : config)
    (f : option file_content) : option file_content * list event :=
  match f with
  | None => (None, [NotFound name])
  | Some (Document data) =>
      match enhance name cfg data with
      | Some data' =>
          (Some (Document data'), [Enhancing name; Enhanced name])
      | None => (f, [Enhancing name; ErrorEnhancing name])
      end
  | Some Unparsable => (f, [Enhancing name; ErrorEnhancing name])
  end.

(** [repr] of a string of printable ASCII characters without apostrophe
    or backslash: the interpreter of the examples. *)
Definition plain_repr : StrRepr := λ s, u "'" ++ s ++ u "'".

(** The link built for one configured cross-link. *)
Definition link_entry (link : link_config) (entry : json) : Prop :=
  (∃ d, entry = JObj d ∧
        d.*1 = [u "title"; u "url"; u "icon"; u "tooltip"; u "type";
                u "targetBlank"]) ∧
  py_getitem entry (u "title") = Some (JStr (title link)) ∧
  py_getitem entry (u "url") = Some (JStr (url link)) ∧
  py_getitem entry (u "tooltip") = Some (JStr (tooltip link)) ∧
  py_getitem entry (u "icon") = Some (JStr (u "dashboard")) ∧
  py_getitem entry (u "type") = Some (JStr (u "link")) ∧
  py_getitem entry (u "targetBlank") = Some (JBool false).

(** Documents on which the routine does not raise: objects where the
    script expects objects, lists where it iterates, strings for [expr]. *)
Definition target_ok (t : json) : bool :=
  match t with
  | JObj d =>
      match dict_get (u "expr") d with
      | Some (JStr _) | None => true
      | Some _ => false
      end
  | _ => false
  end.

Definition panel_ok (p : json) : bool :=
  match p with
  | JObj d =>
      match dict_get (u "targets") d with
      | Some (JArr ts) => forallb target_ok ts
      | Some _ => false
      | None => true
      end
  | _ => false
  end.

Definition dashboard_ok (v : json) : bool :=
  match v with
  | JObj d =>
      match dict_get (u "panels") d with
      | Some (JArr ps) => forallb panel_ok ps
      | Some _ => false
      | None => true
      end
  | _ => false
  end.

Definition document_ok (data : json) : bool :=
  match data with
  | JObj kvs =>
      match dict_get (u "dashboard") kvs with
      | Some v => dashboard_ok v
      | None => true
      end
  | _ => false
  end.

(** ** What the update of a panel is, said without the functions of the
    script *)

(** [s.replace(old, new)] for a non-empty [old]: the leftmost occurrence
    is replaced, then the text after it is treated in the same way. *)
Inductive replaced {A : Type} (old new : list A) : list A → list A → Prop :=
| replaced_none s :
    ¬ infix_of old s → replaced old new s s
| replaced_leftmost a t t' :
    (∀ a' t0, a ++ old ++ t = a' ++ old ++ t0 → length a ≤ length a') →
    replaced old new t t' →
    replaced old new (a ++ old ++ t) (a ++ new ++ t').

(** The text the label set is appended to: what stands between the last
    parenthesis before the first bracket and that bracket (or the end),
    without the white space around it. *)
Definition metric_text (e m : pystr) : Prop :=
  ∃ pre mid rest,
    e = pre ++ mid ++ rest ∧
    (91%N ∉ pre ++ mid) ∧ (rest = [] ∨ ∃ r, rest = 91%N :: r) ∧
    (40%N ∉ mid) ∧ (pre = [] ∨ ∃ p, pre = p ++ [40%N]) ∧
    m = strip mid.

(** Lines 280 to 287: with a brace, the two filters go after the first
    one; without, the label set goes after every occurrence of the metric
    text (between all characters when that text is empty). *)
Definition namespace_added (e x : pystr) : Prop :=
  (∃ a b,
     e = a ++ u "{" ++ b ∧ (123%N ∉ a) ∧
     x = a ++ uq "{namespace='$namespace', instance=~'$instance', " ++ b) ∨
  ((123%N ∉ e) ∧
   ∃ m, metric_text e m ∧
     ((m = [] ∧
       x = uq "{namespace='$namespace', instance=~'$instance'}" ++
           flat_map
             (λ c, c :: uq "{namespace='$namespace', instance=~'$instance'}")
             e) ∨
      (m ≠ [] ∧
       replaced m (m ++ uq "{namespace='$namespace', instance=~'$instance'}")
         e x))).

(** Lines 279 to 290: the expression [e'] stored for the expression [e]. *)
Definition expr_updated (e e' : pystr) : Prop :=
  ∃ x,
    (((infix_of (u "namespace=") e ∨ ¬ infix_of (u "birthday_scheduler_") e) ∧
      x = e) ∨
     (¬ infix_of (u "namespace=") e ∧ infix_of (u "birthday_scheduler_") e ∧
      namespace_added e x)) ∧
    replaced (u "[5m]") (u "[$interval]") x e'.

(** A target after the loop body: its expression is updated, it has a
    [refId], its other keys are as they were; a target without [expr] is
    as it was. *)
Definition target_updated (t t' : json) : Prop :=
  target_frame t t' ∧ target_post t t' ∧
  (py_in (u "expr") t = Some false → t' = t) ∧
  ∀ d e, t = JObj d → dict_get (u "expr") d = Some (JStr e) →
    ∃ e', py_getitem t' (u "expr") = Some (JStr e') ∧ expr_updated e e'.

(** A panel after the loop body. *)
Definition panel_updated `{StrRepr} (p p' : json) : Prop :=
  changes_only [u "targets"; u "description"] p p' ∧
  panel_post p p' ∧
  at_key (u "targets") (elementwise target_updated) p p'.

(** The alert annotation for the filter [alert_filter]. *)
Definition annotation_entry (alert_filter : pystr) (entry : json) : Prop :=
  (∃ d, entry = JObj d ∧
        d.*1 = [u "datasource"; u "enable"; u "expr"; u "iconColor";
                u "name"; u "step"; u "tagKeys"; u "textFormat";
                u "titleFormat"]) ∧
  py_getitem entry (u "datasource") = Some (JStr (u "${datasource}")) ∧
  py_getitem entry (u "enable") = Some (JBool true) ∧
  py_getitem entry (u "expr")
  = Some (JStr (uq "ALERTS{alertname=~'" ++ alert_filter ++
                uq "', namespace='$namespace'}")) ∧
  py_getitem entry (u "iconColor") = Some (JStr (u "rgba(255, 96, 96, 1)")) ∧
  py_getitem entry (u "name") = Some (JStr (u "Alerts")) ∧
  py_getitem entry (u "step") = Some (JStr (u "60s")) ∧
  py_getitem entry (u "tagKeys") = Some (JStr (u "alertname,severity")) ∧
  py_getitem entry (u "textFormat")
  = Some (JStr (u "{{alertname}}: {{severity}}")) ∧
  py_getitem entry (u "titleFormat") = Some (JStr (u "Alert")).

(** ** The inputs on which the routine raises, exactly *)

(** A target the loop body accepts: an object whose [expr], if any, is a
    string; a string or a list is passed over when ["expr" in target] is
    false. *)
Definition target_runs (t : json) : bool :=
  match t with
  | JObj d =>
      match dict_get (u "expr") d with
      | Some (JStr _) | None => true
      | Some _ => false
      end
  | JStr s => negb (contains (u "expr") s)
  | JArr l => negb (existsb (is_str (u "expr")) l)
  | _ => false
  end.

(** A value of ["targets"] the inner loop accepts. *)
Definition targets_run (ts : json) : bool :=
  match ts with
  | JArr l => forallb target_runs l
  | JStr _ => true
  | JObj d => forallb (λ kv, negb (contains (u "expr") kv.1)) d
  | _ => false
  end.

Definition panel_runs (p : json) : bool :=
  match p with
  | JObj d =>
      match dict_get (u "targets") d with
      | Some ts => targets_run ts
      | None => true
      end
  | _ => false
  end.

(** A value of ["panels"] the outer loop accepts: a list of such panels,
    or an empty string or object. *)
Definition panels_run (ps : json) : bool :=
  match ps with
  | JArr l => forallb panel_runs l
  | JStr s => bool_decide (s = [])
  | JObj d => bool_decide (d = [])
  | _ => false
  end.

Definition document_runs (data : json) : bool :=
  match data with
  | JObj kvs =>
      match default (JObj []) (dict_get (u "dashboard") kvs) with
      | JObj d =>
          match dict_get (u "panels") d with
          | Some ps => panels_run ps
          | None => true
          end
      | _ => false
      end
  | _ => false
  end.

(** The keys of an object, in their order. *)
Definition keys (v : json) : list pystr :=
  match v with
  | JObj d => d.*1
  | _ => []
  end.

(** The places of [s] where [p] starts. *)
Definition positions {A : Type} `{EqDecision A} (p s : list A) : list nat :=
  filter (λ k, starts_with p (drop k s) = true) (seq 0 (S (length s))).

(** ** A document for the examples *)

Definition sample_panels : json :=
  JArr [ JObj [(u "id", JInt 1);
               (u "title", JStr (u "Query rate"));
               (u "targets",
                JArr [ JObj [(u "expr",
                              JStr (u "rate(birthday_scheduler_database_queries_total[5m])"))];
                       JObj [(u "expr", JStr (uq "avg(up{job='db'}[1m])"));
                             (u "refId", JStr (u "B"))];
                       JObj [(u "expr",
                              JStr (u "sum(birthday_scheduler_queue_depth)"))] ])];
         JObj [(u "id", JInt 2);
               (u "description", JStr (u ""))] ].

Definition sample_document : json :=
  JObj [(u "dashboard",
         JObj [(u "title", JStr (u "Database"));
               (u "templating",
                JObj [(u "list", JArr [JObj [(u "name", JStr (u "old"))]])]);
               (u "panels", sample_panels)]);
        (u "overwrite", JBool true)].

Definition sample_panels_updated : json :=
  Eval vm_compute in
    default JNull (@update_panel_queries plain_repr sample_panels
                     (u "database.json")).

Definition sample_enhanced : json :=
  Eval vm_compute in
    default JNull (@enhance plain_repr (u "database.json") database_config
                     sample_document).

Definition sample_world : world :=
  {| files := {[ u "database.json" := Document sample_document ]};
     stdout := [] |}.

(** * Properties *)

(** A decidable fact about literals, by evaluation. *)
Ltac by_compute := apply (bool_decide_unpack _); vm_compute; reflexivity.

(** A key outside the listed ones differs from a listed one. *)
Ltac other_key :=
  let E := fresh in
  intros E; subst;
  match goal with Hk : _ ∉ _ |- _ => apply Hk; by_compute end.

(** ** Occurrences *)

Section SeqFacts.
Context {A : Type} `{EqDecision A}.
Implicit Types (p q s t a b old new : list A) (c : A).

Lemma starts_with_prefix p s : starts_with p s = true ↔ p `prefix_of` s.
Proof.
  revert s. induction p as [|x p IH]; intros [|y s]; simpl.
  - split; [intros _; apply prefix_nil | done].
  - split; [intros _; apply prefix_nil | done].
  - split; [done | intros Hp; by apply prefix_nil_inv in Hp].
  - rewrite andb_true_iff, bool_decide_eq_true, IH. split.
    + intros [-> Hp]. by apply prefix_cons.
    + intros Hp. split; [by apply prefix_cons_inv_1 in Hp | by apply prefix_cons_inv_2 in Hp].
Qed.

Lemma starts_with_app p t : starts_with p (p ++ t) = true.
Proof. apply starts_with_prefix. by exists t. Qed.

Lemma infix_of_nil s : infix_of [] s.
Proof. by exists [], s. Qed.

Lemma infix_of_prefix p s : p `prefix_of` s → infix_of p s.
Proof. intros [v ->]. by exists [], v. Qed.

Lemma infix_of_app_l p a b : infix_of p a → infix_of p (a ++ b).
Proof. intros (x & y & ->). exists x, (y ++ b). by rewrite <- !app_assoc. Qed.

Lemma infix_of_app_r p a b : infix_of p b → infix_of p (a ++ b).
Proof. intros (x & y & ->). exists (a ++ x), y. by rewrite <- !app_assoc. Qed.

Lemma infix_of_cons_r p c s : infix_of p s → infix_of p (c :: s).
Proof. apply (infix_of_app_r p [c] s). Qed.

Lemma infix_of_trans p q s : infix_of p q → infix_of q s → infix_of p s.
Proof. intros Hp (x & y & ->). by apply infix_of_app_r, infix_of_app_l. Qed.

Lemma infix_of_cons_inv p c s :
  infix_of p (c :: s) → p `prefix_of` (c :: s) ∨ infix_of p s.
Proof.
  intros ([|x xs] & y & Heq); simpl in Heq.
  - left. by exists y.
  - right. injection Heq as _ ->. by exists xs, y.
Qed.

Lemma infix_of_nil_inv p : infix_of p [] → p = [].
Proof.
  intros (x & y & Heq). symmetry in Heq.
  apply app_eq_nil in Heq as [_ Heq]. by apply app_eq_nil in Heq as [-> _].
Qed.

Lemma contains_infix p s : contains p s = true ↔ infix_of p s.
Proof.
  induction s as [|c s IH]; simpl.
  - rewrite orb_false_r, starts_with_prefix. split.
    + apply infix_of_prefix.
    + intros ->%infix_of_nil_inv. apply prefix_nil.
  - rewrite orb_true_iff, starts_with_prefix, IH. split.
    + intros [Hp | Hi]; [by apply infix_of_prefix | by apply infix_of_cons_r].
    + apply infix_of_cons_inv.
Qed.

Lemma contains_false p s : contains p s = false ↔ ¬ infix_of p s.
Proof. rewrite <- contains_infix. by destruct (contains p s). Qed.

Lemma infix_of_elem c s : infix_of [c] s ↔ c ∈ s.
Proof.
  split.
  - intros (x & y & ->). set_solver.
  - intros (x & y & ->)%list_elem_of_split. by exists x, y.
Qed.

Lemma prefix_before_char p a c b :
  c ∉ p → p `prefix_of` a ++ c :: b → p `prefix_of` a.
Proof.
  revert a. induction p as [|y p IH]; intros a Hc Hp; [apply prefix_nil|].
  destruct a as [|x a]; simpl in Hp.
  - apply prefix_cons_inv_1 in Hp. set_solver.
  - pose proof (prefix_cons_inv_1 _ _ _ _ Hp) as ->.
    apply prefix_cons, IH; [set_solver|]. by apply prefix_cons_inv_2 in Hp.
Qed.

(** A block without the character [c] lies on one side of a [c]. *)
Lemma infix_of_split_char p a c b :
  c ∉ p → infix_of p (a ++ c :: b) → infix_of p a ∨ infix_of p b.
Proof.
  intros Hc. induction a as [|x a IH]; simpl; intros Hi.
  - apply infix_of_cons_inv in Hi as [Hp | Hi]; [|by right].
    left. apply infix_of_prefix. by apply (prefix_before_char p [] c b).
  - apply infix_of_cons_inv in Hi as [Hp | Hi].
    + left. apply infix_of_prefix.
      by apply (prefix_before_char p (x :: a) c b).
    + destruct (IH Hi) as [?|?]; [left; by apply infix_of_cons_r | by right].
Qed.

(** An occurrence of [c :: q] does not start in a part without [c]. *)
Lemma infix_of_skip c q a b :
  c ∉ a → infix_of (c :: q) (a ++ b) → infix_of (c :: q) b.
Proof.
  induction a as [|x a IH]; simpl; intros Hc Hi; [done|].
  apply infix_of_cons_inv in Hi as [Hp | Hi].
  - apply prefix_cons_inv_1 in Hp. set_solver.
  - apply IH; [set_solver | done].
Qed.

(** When [c] occurs in [c :: q] only as its head, an occurrence of
    [c :: q] does not run across a [c]. *)
Lemma infix_of_split_head c q a b :
  c ∉ q → infix_of (c :: q) (a ++ c :: b) →
  infix_of (c :: q) a ∨ infix_of (c :: q) (c :: b).
Proof.
  intros Hc. induction a as [|x a IH]; simpl; intros Hi; [by right|].
  apply infix_of_cons_inv in Hi as [Hp | Hi].
  - left. apply infix_of_prefix.
    pose proof (prefix_cons_inv_1 _ _ _ _ Hp) as <-.
    apply prefix_cons, (prefix_before_char q a c b); [done|].
    by apply prefix_cons_inv_2 in Hp.
  - destruct (IH Hi) as [?|?]; [left; by apply infix_of_cons_r | by right].
Qed.

(** The leftmost occurrence. *)
Lemma infix_of_leftmost p s :
  infix_of p s → ∃ a t, s = a ++ p ++ t ∧ ∀ a' t', s = a' ++ p ++ t' → length a ≤ length a'.
Proof.
  induction s as [|c s IH]; intros Hi.
  - apply infix_of_nil_inv in Hi as ->. exists [], []. split; [done|].
    intros; simpl; lia.
  - destruct (decide (p `prefix_of` c :: s)) as [[v Hp]|Hn].
    + exists [], v. split; [done|]. intros; simpl; lia.
    + apply infix_of_cons_inv in Hi as [?|Hi]; [done|].
      destruct (IH Hi) as (a & t & -> & Hmin). exists (c :: a), t.
      split; [done|]. intros [|x a'] t' Heq; simpl in Heq.
      * destruct Hn. by exists t'.
      * injection Heq as _ Heq. simpl. apply Hmin in Heq. lia.
Qed.

(** *** [replace] *)

Lemma replace_scan_skip old new k s :
  replace_scan old new k s = replace_scan old new 0 (drop k s).
Proof.
  revert k. induction s as [|c s IH]; intros [|k]; try done.
  simpl. apply IH.
Qed.

Lemma replace_all_match old new t :
  old ≠ [] → replace_all old new (old ++ t) = new ++ replace_all old new t.
Proof.
  destruct old as [|x old]; [done|]. intros _. unfold replace_all.
  change ((x :: old) ++ t) with (x :: (old ++ t)).
  cbn [replace_scan].
  change (x :: (old ++ t)) with ((x :: old) ++ t).
  rewrite starts_with_app, replace_scan_skip. simpl.
  by rewrite Nat.sub_0_r, drop_app_length.
Qed.

Lemma replace_all_cons old new c s :
  old ≠ [] → ¬ old `prefix_of` c :: s →
  replace_all old new (c :: s) = c :: replace_all old new s.
Proof.
  destruct old as [|x old]; [done|]. intros _ Hn. unfold replace_all.
  cbn [replace_scan].
  destruct (starts_with (x :: old) (c :: s)) eqn:Hs; [|done].
  by apply starts_with_prefix in Hs.
Qed.

Lemma replace_all_nil old new : old ≠ [] → replace_all old new [] = [].
Proof. by destruct old. Qed.

Lemma replace_all_absent old new s :
  ¬ infix_of old s → replace_all old new s = s.
Proof.
  intros Hn. assert (old ≠ []) as Hne.
  { intros ->. apply Hn, infix_of_nil. }
  induction s as [|c s IH]; [by apply replace_all_nil|].
  rewrite replace_all_cons; [|done|].
  - f_equal. apply IH. intros Hi. by apply Hn, infix_of_cons_r.
  - intros Hp. by apply Hn, infix_of_prefix.
Qed.

(** An occurrence of [old] gives an occurrence of [new] in the result. *)
Lemma replace_all_occurs old new s :
  infix_of old s → infix_of new (replace_all old new s).
Proof.
  destruct (decide (old = [])) as [->|Hne].
  { intros _. simpl. apply infix_of_prefix. by eexists. }
  induction s as [|c s IH]; intros Hi.
  - by apply infix_of_nil_inv in Hi.
  - destruct (decide (old `prefix_of` c :: s)) as [[v Hp]|Hn].
    + rewrite Hp, replace_all_match by done. apply infix_of_prefix. by eexists.
    + rewrite replace_all_cons by done.
      apply infix_of_cons_inv in Hi as [?|Hi]; [done|].
      by apply infix_of_cons_r, IH.
Qed.

(** The leftmost occurrence is replaced first; it is the one after [a]
    when the head of [c :: q] does not occur again in it. *)
Lemma replace_all_leftmost c q new a t :
  c ∉ q → ¬ infix_of (c :: q) a →
  replace_all (c :: q) new (a ++ (c :: q) ++ t)
  = a ++ new ++ replace_all (c :: q) new t.
Proof.
  intros Hc. induction a as [|x a IH]; intros Hn.
  - by apply (replace_all_match (c :: q)).
  - rewrite <- !app_comm_cons, replace_all_cons; [|done|].
    + f_equal. apply IH. intros Hi. by apply Hn, infix_of_cons_r.
    + intros Hp. apply Hn, infix_of_prefix.
      pose proof (prefix_cons_inv_1 _ _ _ _ Hp) as <-.
      apply prefix_cons, (prefix_before_char q a c (q ++ t)); [done|].
      by apply prefix_cons_inv_2 in Hp.
Qed.

(** Every occurrence is replaced and nothing else is touched: whatever
    way [s] is cut at occurrences of [c :: q] into parts that have none,
    the result is these parts with [new] between them. *)
Lemma replace_all_join c q new segs :
  c ∉ q → Forall (λ x, ¬ infix_of (c :: q) x) segs →
  replace_all (c :: q) new (join (c :: q) segs) = join new segs.
Proof.
  intros Hc. induction 1 as [|x [|y segs] Hx Hsegs IH].
  - done.
  - by apply replace_all_absent.
  - change (join ?sep (x :: y :: segs)) with (x ++ sep ++ join sep (y :: segs)).
    by rewrite replace_all_leftmost, IH.
Qed.

(** Every string is cut in this way. *)
Lemma segments_exist p s :
  p ≠ [] →
  ∃ segs, segs ≠ [] ∧ Forall (λ x, ¬ infix_of p x) segs ∧ s = join p segs.
Proof.
  intros Hne. remember (length s) as n eqn:Hn.
  revert s Hn. induction (lt_wf n) as [n _ IH]; intros s ->.
  destruct (decide (contains p s = true)) as [Hc|Hc].
  - apply contains_infix, infix_of_leftmost in Hc as (a & t & -> & Hmin).
    destruct (IH (length t)) with (s := t) as (segs & Hs & Hall & ->); [|done|].
    { rewrite !length_app. destruct p; [done|simpl; lia]. }
    exists (a :: segs). split; [done|]. split.
    + constructor; [|done]. intros (x & y & ->).
      specialize (Hmin x (y ++ p ++ join p segs)).
      rewrite <- !app_assoc in Hmin. specialize (Hmin eq_refl).
      rewrite !length_app in Hmin. destruct p; [done|simpl in Hmin; lia].
    + by destruct segs.
  - exists [s]. split; [done|]. split; [|done].
    constructor; [|done]. apply contains_false. by destruct (contains p s).
Qed.

Lemma replace_first_absent old new s :
  ¬ infix_of old s → replace_first old new s = s.
Proof.
  induction s as [|c s IH]; intros Hn; simpl.
  - destruct (starts_with old []) eqn:Hs; [|done].
    apply starts_with_prefix in Hs. by destruct Hn; apply infix_of_prefix.
  - destruct (starts_with old (c :: s)) eqn:Hs.
    + apply starts_with_prefix in Hs. by destruct Hn; apply infix_of_prefix.
    + f_equal. apply IH. intros Hi. by apply Hn, infix_of_cons_r.
Qed.

Lemma prefix_drop p s : p `prefix_of` s → p ++ drop (length p) s = s.
Proof. intros [v ->]. by rewrite drop_app_length. Qed.

(** Replacing a text by itself changes nothing (line 280). *)
Lemma replace_first_same old s : replace_first old old s = s.
Proof.
  induction s as [|c s IH]; cbn [replace_first].
  - destruct (starts_with old []) eqn:Hs; [|done].
    by apply prefix_drop, starts_with_prefix.
  - destruct (starts_with old (c :: s)) eqn:Hs; [|by rewrite IH].
    by apply prefix_drop, starts_with_prefix.
Qed.

Lemma replace_first_char c new a b :
  c ∉ a → replace_first [c] new (a ++ c :: b) = a ++ new ++ b.
Proof.
  induction a as [|x a IH]; intros Hc; simpl.
  - by rewrite bool_decide_eq_true_2.
  - rewrite bool_decide_eq_false_2 by set_solver. simpl.
    f_equal. apply IH. set_solver.
Qed.

(** *** [join], [split] *)

Lemma join_cons2 sep (x y : list A) segs :
  join sep (x :: y :: segs) = x ++ sep ++ join sep (y :: segs).
Proof. done. Qed.

Lemma infix_of_join p sep segs :
  Exists (infix_of p) segs → infix_of p (join sep segs).
Proof.
  induction segs as [|x [|y segs] IH]; intros Hex.
  - by apply Exists_nil in Hex.
  - apply Exists_cons in Hex as [?|Hex]; [done | by apply Exists_nil in Hex].
  - rewrite join_cons2. apply Exists_cons in Hex as [?|Hex].
    + by apply infix_of_app_l.
    + by apply infix_of_app_r, infix_of_app_r, IH.
Qed.

(** A block that has neither the first nor the last character of the
    separator, and does not occur inside it, occurs in a part. *)
Lemma infix_of_join_inv p c1 mid c2 segs :
  p ≠ [] → c1 ∉ p → c2 ∉ p → ¬ infix_of p mid →
  infix_of p (join (c1 :: mid ++ [c2]) segs) → Exists (infix_of p) segs.
Proof.
  intros Hne H1 H2 Hmid.
  induction segs as [|x [|y segs] IH]; intros Hi.
  - by apply infix_of_nil_inv in Hi.
  - by apply Exists_cons_hd.
  - rewrite join_cons2 in Hi. simpl in Hi.
    apply infix_of_split_char in Hi as [?|Hi]; [by apply Exists_cons_hd| |done].
    rewrite <- app_assoc in Hi. simpl in Hi.
    apply infix_of_split_char in Hi as [?|Hi]; [done| |done].
    by apply Exists_cons_tl, IH.
Qed.

Lemma split_on_cons c s : ∃ x xs, split_on c s = x :: xs.
Proof.
  destruct s as [|y s]; simpl; [by eexists _, _|].
  case_bool_decide; [by eexists _, _|].
  destruct (split_on c s); by eexists _, _.
Qed.

(** [c.join(s.split(c)) == s] *)
Lemma join_split_on c s : join [c] (split_on c s) = s.
Proof.
  induction s as [|y s IH]; [done|]. cbn [split_on].
  destruct (split_on_cons c s) as (x & xs & Heq). rewrite Heq in *.
  case_bool_decide as Hy.
  - rewrite join_cons2, IH. by rewrite Hy.
  - destruct xs as [|x' xs]; [by simpl in *; subst|].
    rewrite join_cons2 in *. by rewrite <- IH.
Qed.

Lemma join_first sep (segs : list (list A)) : nth 0 segs [] `prefix_of` join sep segs.
Proof.
  destruct segs as [|x [|y segs]]; [done..|].
  rewrite join_cons2. by eexists.
Qed.

Lemma join_last sep (segs : list (list A)) : List.last segs [] `suffix_of` join sep segs.
Proof.
  induction segs as [|x [|y segs] IH]; [done..|].
  rewrite join_cons2. change (List.last (x :: y :: segs) []) with (List.last (y :: segs) []).
  destruct IH as [k ->]. exists (x ++ sep ++ k). by rewrite <- !app_assoc.
Qed.

(** [s.split(c)[0]] starts [s]. *)
Lemma split_on_first c s : nth 0 (split_on c s) [] `prefix_of` s.
Proof. rewrite <- (join_split_on c s) at 2. apply join_first. Qed.

(** [s.split(c)[-1]] ends [s]. *)
Lemma split_on_last c s : List.last (split_on c s) [] `suffix_of` s.
Proof. rewrite <- (join_split_on c s) at 2. apply join_last. Qed.

Lemma infix_of_suffix p s : p `suffix_of` s → infix_of p s.
Proof. intros [k ->]. exists k, []. by rewrite app_nil_r. Qed.
End SeqFacts.

(** ** Expressions *)

Section Expressions.
Implicit Types (e s x : pystr).

Lemma lstrip_suffix s : lstrip s `suffix_of` s.
Proof.
  induction s as [|c s IH]; simpl; [done|].
  destruct (is_space c); [by apply suffix_cons_r | done].
Qed.

Lemma rstrip_prefix s : rstrip s `prefix_of` s.
Proof.
  unfold rstrip. destruct (lstrip_suffix (reverse s)) as [k Hk].
  exists (reverse k). rewrite <- reverse_app, <- Hk. by rewrite reverse_involutive.
Qed.

Lemma strip_infix s : infix_of (strip s) s.
Proof.
  unfold strip. eapply infix_of_trans.
  - apply infix_of_prefix, rstrip_prefix.
  - apply infix_of_suffix, lstrip_suffix.
Qed.

Lemma metric_name_infix e : infix_of (metric_name e) e.
Proof.
  unfold metric_name. eapply infix_of_trans; [apply strip_infix|].
  eapply infix_of_trans; [apply infix_of_suffix, split_on_last|].
  apply infix_of_prefix, split_on_first.
Qed.

(** *** The time window *)

Lemma replace_window_join segs :
  Forall (λ x, ¬ infix_of (u "[5m]") x) segs →
  replace_window (join (u "[5m]") segs) = join (u "[$interval]") segs.
Proof. apply (replace_all_join 91%N (u "5m]")). by_compute. Qed.

Lemma join_interval_free segs :
  Forall (λ x, ¬ infix_of (u "[5m]") x) segs →
  ¬ infix_of (u "[5m]") (join (u "[$interval]") segs).
Proof.
  induction 1 as [|x [|y segs] Hx Hsegs IH]; intros Hi.
  - by apply infix_of_nil_inv in Hi.
  - done.
  - rewrite join_cons2 in Hi.
    apply (infix_of_split_head 91%N (u "5m]") x) in Hi as [?|Hi]; [done| |by_compute].
    apply infix_of_cons_inv in Hi as [Hp|Hi].
    + destruct Hp as [k Hk]. vm_compute in Hk. discriminate.
    + apply IH. revert Hi.
      apply (infix_of_skip 91%N (u "5m]") (u "$interval]")).
      by_compute.
Qed.

(** No [[5m]] is left. *)
Lemma replace_window_free e : ¬ infix_of (u "[5m]") (replace_window e).
Proof.
  destruct (segments_exist (u "[5m]") e) as (segs & _ & Hall & ->); [done|].
  rewrite replace_window_join by done. by apply join_interval_free.
Qed.

Lemma replace_window_idem e : replace_window (replace_window e) = replace_window e.
Proof. apply replace_all_absent, replace_window_free. Qed.

(** A text without brackets that is part of neither window is in the
    result exactly when it was in the expression. *)
Lemma replace_window_infix x e :
  x ≠ [] → 91%N ∉ x → 93%N ∉ x →
  ¬ infix_of x (u "5m") → ¬ infix_of x (u "$interval") →
  infix_of x (replace_window e) ↔ infix_of x e.
Proof.
  intros Hne H1 H2 H5 Hi.
  destruct (segments_exist (u "[5m]") e) as (segs & _ & Hall & ->); [done|].
  rewrite replace_window_join by done. split; intros Hx.
  - apply infix_of_join.
    by apply (infix_of_join_inv x 91%N (u "$interval") 93%N segs).
  - apply infix_of_join.
    by apply (infix_of_join_inv x 91%N (u "5m") 93%N segs).
Qed.

Lemma replace_window_namespace e :
  contains (u "namespace=") (replace_window e) = contains (u "namespace=") e.
Proof.
  apply eq_true_iff_eq. rewrite !contains_infix.
  apply replace_window_infix; try done; try by_compute;
    apply contains_false; by vm_compute.
Qed.

Lemma replace_window_scheduler e :
  contains (u "birthday_scheduler_") (replace_window e)
  = contains (u "birthday_scheduler_") e.
Proof.
  apply eq_true_iff_eq. rewrite !contains_infix.
  apply replace_window_infix; try done; try by_compute;
    apply contains_false; by vm_compute.
Qed.
End Expressions.

(** ** Dictionaries *)

Section Dict.
Implicit Types (k : pystr) (v : json) (d : dict).

Lemma dict_get_set k v d : dict_get k (dict_set k v d) = Some v.
Proof.
  induction d as [|[k' v'] d IH]; simpl.
  - by rewrite decide_True.
  - destruct (decide (k = k')) as [->|Hne]; simpl.
    + by rewrite decide_True.
    + by rewrite decide_False.
Qed.

Lemma dict_get_set_ne k k' v d :
  k ≠ k' → dict_get k' (dict_set k v d) = dict_get k' d.
Proof.
  intros Hne. induction d as [|[k0 v0] d IH]; simpl.
  - by rewrite decide_False.
  - destruct (decide (k = k0)) as [->|Hk]; simpl.
    + by rewrite !decide_False.
    + destruct (decide (k' = k0)); [done | apply IH].
Qed.

(** Storing what is there changes nothing. *)
Lemma dict_set_id k v d : dict_get k d = Some v → dict_set k v d = d.
Proof.
  induction d as [|[k0 v0] d IH]; simpl; [done|].
  destruct (decide (k = k0)) as [->|Hk]; [by intros [= ->]|].
  intros Hg. by rewrite IH.
Qed.

Lemma dict_set_set k v v' d : dict_set k v (dict_set k v' d) = dict_set k v d.
Proof.
  induction d as [|[k0 v0] d IH]; simpl.
  - by rewrite decide_True.
  - destruct (decide (k = k0)) as [->|Hk]; simpl.
    + by rewrite decide_True.
    + by rewrite decide_False, IH.
Qed.

End Dict.

(** ** Targets *)

Section Targets.
Implicit Types (e : pystr) (t : json) (d : dict).

Lemma add_namespace_filter_brace a b :
  123%N ∉ a →
  add_namespace_filter (a ++ 123%N :: b) = a ++ brace_filters ++ b.
Proof.
  intros Ha. unfold add_namespace_filter.
  rewrite replace_first_same. change (u "{") with [123%N].
  rewrite replace_first_char by done.
  assert (contains [123%N] (a ++ brace_filters ++ b) = true) as ->; [|done].
  apply contains_infix, infix_of_app_r, infix_of_app_l, infix_of_prefix.
  by eexists.
Qed.

Lemma add_namespace_filter_plain e :
  123%N ∉ e →
  add_namespace_filter e
  = replace_all (metric_name e) (metric_name e ++ label_set) e.
Proof.
  intros He. unfold add_namespace_filter.
  rewrite replace_first_same. change (u "{") with [123%N].
  rewrite replace_first_absent by by rewrite infix_of_elem.
  assert (contains [123%N] e = false) as ->.
  { apply contains_false. by rewrite infix_of_elem. }
  simpl negb. cbv iota.
  destruct (split_on_cons 91%N e) as (x & xs & Heq).
  unfold metric_name. by rewrite Heq.
Qed.

(** After the filters are added, the expression has [namespace=]. *)
Lemma add_namespace_filter_namespace e :
  contains (u "namespace=") (add_namespace_filter e) = true.
Proof.
  apply contains_infix. destruct (decide (123%N ∈ e)) as [Hin|Hout].
  - apply list_elem_of_split_l in Hin as (a & b & -> & Ha).
    rewrite add_namespace_filter_brace by done.
    apply infix_of_app_r, infix_of_app_l, contains_infix. by vm_compute.
  - rewrite add_namespace_filter_plain by done.
    eapply infix_of_trans;
      [|apply replace_all_occurs, metric_name_infix].
    apply infix_of_app_r, contains_infix. by vm_compute.
Qed.

Lemma update_expr_str e : update_expr (JStr e) = Some (new_expr e).
Proof.
  unfold update_expr, new_expr, filtered, needs_filter. simpl.
  by destruct (contains (u "namespace=") e), (contains (u "birthday_scheduler_") e).
Qed.

Lemma update_expr_inv v e' :
  update_expr v = Some e' → ∃ e, v = JStr e ∧ e' = new_expr e.
Proof.
  destruct v as [| | | |e| |]; try by (unfold update_expr; simpl).
  - rewrite update_expr_str. intros [= <-]. by exists e.
  - unfold update_expr. simpl. by repeat (case_match; simpl).
  - unfold update_expr. simpl. by repeat (case_match; simpl).
Qed.

Lemma new_expr_idem e : new_expr (new_expr e) = new_expr e.
Proof.
  unfold new_expr. unfold filtered at 1. unfold needs_filter at 1.
  rewrite replace_window_namespace, replace_window_scheduler.
  unfold filtered. destruct (needs_filter e) eqn:Hn.
  - rewrite add_namespace_filter_namespace. simpl. apply replace_window_idem.
  - unfold needs_filter in Hn. rewrite Hn. apply replace_window_idem.
Qed.

Lemma update_target_dict d e :
  dict_get (u "expr") d = Some (JStr e) →
  update_target (JObj d)
  = Some (JObj (with_ref_id (dict_set (u "expr") (JStr (new_expr e)) d))).
Proof.
  intros Hg. unfold update_target, with_ref_id. simpl. rewrite Hg.
  rewrite bool_decide_eq_true_2 by done. simpl.
  rewrite update_expr_str. simpl. by case_bool_decide.
Qed.

Lemma update_target_inv t t' :
  update_target t = Some t' →
  (∃ d e, t = JObj d ∧ dict_get (u "expr") d = Some (JStr e) ∧
          t' = JObj (with_ref_id (dict_set (u "expr") (JStr (new_expr e)) d)))
  ∨ (t' = t ∧ py_in (u "expr") t = Some false).
Proof.
  intros Ht. destruct t as [| | | |s|l|d]; try done.
  - right. unfold update_target in *. simpl in *.
    destruct (contains (u "expr") s); simpl in *; [done|]. by injection Ht as <-.
  - right. unfold update_target in *. simpl in *.
    destruct (existsb (is_str (u "expr")) l); simpl in *; [done|].
    by injection Ht as <-.
  - destruct (dict_get (u "expr") d) as [v|] eqn:Hv.
    + left. destruct (update_expr v) as [e'|] eqn:He.
      * apply update_expr_inv in He as (e & -> & ->).
        rewrite (update_target_dict _ _ Hv) in Ht. injection Ht as <-.
        by exists d, e.
      * unfold update_target in Ht. simpl in Ht. rewrite Hv in Ht.
        rewrite bool_decide_eq_true_2 in Ht by done. simpl in Ht.
        by rewrite He in Ht.
    + right. unfold update_target in *. simpl in *. rewrite Hv in *.
      rewrite bool_decide_eq_false_2 in * by by intros [? ?].
      simpl in *. by injection Ht as <-.
Qed.
End Targets.

(** ** Loops and panels *)

Section Panels.
Context `{StrRepr}.
Implicit Types (p v : json) (d : dict).

Lemma for_each_list body l v' :
  for_each body (JArr l) = Some v' ↔
  ∃ l', v' = JArr l' ∧ Forall2 (λ x x', body x = Some x') l l'.
Proof.
  simpl. rewrite fmap_Some. setoid_rewrite mapM_Some. split.
  - intros (l' & Hall & ->). by exists l'.
  - intros (l' & -> & Hall). by exists l'.
Qed.

Lemma for_each_other body v v' :
  (∀ l, v ≠ JArr l) → for_each body v = Some v' → v' = v.
Proof.
  intros Hv. destruct v; simpl; try done.
  - destruct (mapM _ _); simpl; [by intros [= <-]|done].
  - by destruct (Hv l).
  - destruct (mapM _ _); simpl; [by intros [= <-]|done].
Qed.

(** A loop whose body is idempotent is idempotent. *)
Lemma for_each_idem body v v' :
  (∀ x x', body x = Some x' → body x' = Some x') →
  for_each body v = Some v' → for_each body v' = Some v'.
Proof.
  intros Hbody Hv.
  assert ((∃ l, v = JArr l) ∨ ∀ l, v ≠ JArr l) as [[l ->]|Hn].
  { destruct v; eauto. }
  - apply for_each_list in Hv as (l' & -> & Hall).
    apply for_each_list. exists l'. split; [done|].
    induction Hall; constructor; eauto.
  - by pose proof (for_each_other _ _ _ Hn Hv) as ->.
Qed.

Lemma update_panel_dict d :
  update_panel (JObj d)
  = match dict_get (u "targets") d with
    | Some ts =>
        ts' ← for_each update_target ts;
        Some (JObj (with_description (dict_set (u "targets") ts' d)))
    | None => Some (JObj (with_description d))
    end.
Proof.
  assert (∀ d1, (has_description ← py_in (u "description") (JObj d1);
      missing ← (if has_description : bool then
                   description ← py_getitem (JObj d1) (u "description");
                   Some (negb (py_truth description))
                 else Some true);
      if missing : bool then
        description ← default_description (JObj d1);
        py_setitem (JObj d1) (u "description") (JStr description)
      else Some (JObj d1)) = Some (JObj (with_description d1))) as Hdesc.
  { intros d1. unfold with_description, needs_description. simpl.
    destruct (dict_get (u "description") d1) as [v|] eqn:Hv; simpl.
    - rewrite ?Hv. simpl. by destruct (py_truth v).
    - done. }
  unfold update_panel. simpl.
  destruct (dict_get (u "targets") d) as [ts|] eqn:Hts; simpl.
  - rewrite ?Hts. simpl.
    destruct (for_each update_target ts) as [ts'|]; simpl; [|done].
    apply Hdesc.
  - apply Hdesc.
Qed.

(** A panel that is not an object makes the loop body raise. *)
Lemma update_panel_not_dict p p' :
  update_panel p = Some p' → ∃ d, p = JObj d.
Proof.
  destruct p as [| | | |s|l|d]; try done; [| |by exists d].
  - unfold update_panel, default_description. simpl.
    destruct (contains (u "targets") s); simpl; [done|].
    by destruct (contains (u "description") s).
  - unfold update_panel, default_description. simpl.
    destruct (existsb (is_str (u "targets")) l); simpl; [done|].
    by destruct (existsb (is_str (u "description")) l).
Qed.

Lemma with_ref_id_get k d :
  k ≠ u "refId" → dict_get k (with_ref_id d) = dict_get k d.
Proof.
  intros Hk. unfold with_ref_id. case_bool_decide; [done|].
  by apply dict_get_set_ne.
Qed.

Lemma with_ref_id_some d : is_Some (dict_get (u "refId") (with_ref_id d)).
Proof.
  unfold with_ref_id. case_bool_decide; [done|].
  rewrite dict_get_set. by eexists.
Qed.

Lemma with_ref_id_idem d : with_ref_id (with_ref_id d) = with_ref_id d.
Proof.
  unfold with_ref_id at 1. by rewrite bool_decide_eq_true_2 by apply with_ref_id_some.
Qed.

Lemma update_target_idem t t' :
  update_target t = Some t' → update_target t' = Some t'.
Proof.
  intros Ht.
  destruct (update_target_inv _ _ Ht) as [(d & e & -> & He & ->)|[-> _]];
    [|done].
  rewrite (update_target_dict _ (new_expr e)).
  - rewrite new_expr_idem, dict_set_id, with_ref_id_idem; [done|].
    by rewrite with_ref_id_get, dict_get_set.
  - by rewrite with_ref_id_get, dict_get_set.
Qed.

Lemma with_description_get k d :
  k ≠ u "description" → dict_get k (with_description d) = dict_get k d.
Proof.
  intros Hk. unfold with_description. destruct (needs_description d); [|done].
  by apply dict_get_set_ne.
Qed.

Lemma with_description_truth d :
  ∃ v, dict_get (u "description") (with_description d) = Some v ∧
       py_truth v = true.
Proof.
  unfold with_description. destruct (needs_description d) eqn:Hn.
  - eexists. by rewrite dict_get_set.
  - unfold needs_description in Hn.
    destruct (dict_get (u "description") d) as [v|]; [|done].
    exists v. split; [done|]. by destruct (py_truth v).
Qed.

Lemma with_description_idem d :
  with_description (with_description d) = with_description d.
Proof.
  unfold with_description at 1, needs_description.
  by destruct (with_description_truth d) as (v & -> & ->).
Qed.

Lemma update_panel_idem p p' :
  update_panel p = Some p' → update_panel p' = Some p'.
Proof.
  intros Hp. destruct (update_panel_not_dict _ _ Hp) as [d ->].
  rewrite update_panel_dict in Hp.
  destruct (dict_get (u "targets") d) as [ts|] eqn:Hts.
  - destruct (for_each update_target ts) as [ts'|] eqn:Hfe; [|done].
    injection Hp as <-.
    rewrite update_panel_dict, with_description_get, dict_get_set by done.
    rewrite (for_each_idem _ _ _ update_target_idem Hfe). simpl.
    rewrite dict_set_id, with_description_idem; [done|].
    by rewrite with_description_get, dict_get_set.
  - injection Hp as <-.
    rewrite update_panel_dict, with_description_get, Hts by done.
    by rewrite with_description_idem.
Qed.
End Panels.

(** ** The document *)

Section Document.
Context `{StrRepr}.
Implicit Types (data v : json) (d kvs : dict) (cfg : config) (name : pystr).

Lemma merged_get k cfg d :
  k ≠ u "templating" → k ≠ u "links" → k ≠ u "annotations" →
  dict_get k (merged cfg d) = dict_get k d.
Proof. intros Ht Hl Ha. unfold merged. by rewrite !dict_get_set_ne. Qed.

Lemma merged_templating cfg d :
  dict_get (u "templating") (merged cfg d) = Some (templating cfg).
Proof.
  unfold merged. do 2 rewrite dict_get_set_ne by by_compute.
  apply dict_get_set.
Qed.

Lemma merged_links cfg d :
  dict_get (u "links") (merged cfg d)
  = Some (create_links (drill_down_links cfg)).
Proof.
  unfold merged. rewrite dict_get_set_ne by by_compute. apply dict_get_set.
Qed.

Lemma merged_annotations cfg d :
  dict_get (u "annotations") (merged cfg d)
  = Some (create_annotations (alert_filter cfg)).
Proof. unfold merged. by rewrite dict_get_set. Qed.

Lemma merged_id cfg d :
  dict_get (u "templating") d = Some (templating cfg) →
  dict_get (u "links") d = Some (create_links (drill_down_links cfg)) →
  dict_get (u "annotations") d
  = Some (create_annotations (alert_filter cfg)) →
  merged cfg d = d.
Proof.
  intros Ht Hl Ha. unfold merged.
  by rewrite (dict_set_id (u "templating")), (dict_set_id (u "links")),
    (dict_set_id (u "annotations")).
Qed.

Lemma merged_idem cfg d : merged cfg (merged cfg d) = merged cfg d.
Proof.
  apply merged_id;
    [apply merged_templating | apply merged_links | apply merged_annotations].
Qed.

Lemma enhance_dict name cfg kvs :
  enhance name cfg (JObj kvs)
  = match default (JObj []) (dict_get (u "dashboard") kvs) with
    | JObj d =>
        match dict_get (u "panels") d with
        | Some panels =>
            panels' ← update_panel_queries panels name;
            Some (JObj (dict_set (u "dashboard")
                          (JObj (dict_set (u "panels") panels' (merged cfg d)))
                          kvs))
        | None =>
            Some (JObj (dict_set (u "dashboard") (JObj (merged cfg d)) kvs))
        end
    | _ => None
    end.
Proof.
  unfold enhance. cbv zeta. fold (templating cfg). simpl.
  destruct (default (JObj []) (dict_get (u "dashboard") kvs)) as [| | | | | |d];
    try done.
  simpl. fold (merged cfg d).
  rewrite (merged_get (u "panels")) by by_compute.
  destruct (dict_get (u "panels") d) as [panels|]; simpl.
  - by destruct (update_panel_queries panels name).
  - done.
Qed.

(** What a run that does not raise has built. *)
Lemma enhance_inv name cfg data data' :
  enhance name cfg data = Some data' →
  ∃ kvs d d', data = JObj kvs ∧ dashboard_of data = Some (JObj d) ∧
    data' = JObj (dict_set (u "dashboard") (JObj d') kvs) ∧
    match dict_get (u "panels") d with
    | Some panels => ∃ panels',
        update_panel_queries panels name = Some panels' ∧
        d' = dict_set (u "panels") panels' (merged cfg d)
    | None => d' = merged cfg d
    end.
Proof.
  destruct data as [| | | | | |kvs]; try done.
  rewrite enhance_dict. unfold dashboard_of. simpl.
  destruct (default (JObj []) (dict_get (u "dashboard") kvs)) as [| | | | | |d];
    try done.
  destruct (dict_get (u "panels") d) as [panels|] eqn:Hp.
  - destruct (update_panel_queries panels name) as [panels'|] eqn:Hu; [|done].
    intros [= <-]. exists kvs, d, (dict_set (u "panels") panels' (merged cfg d)).
    rewrite Hp. eauto 10.
  - intros [= <-]. exists kvs, d, (merged cfg d). by rewrite Hp.
Qed.

Lemma update_panel_queries_idem panels name panels' :
  update_panel_queries panels name = Some panels' →
  update_panel_queries panels' name = Some panels'.
Proof. apply for_each_idem, update_panel_idem. Qed.
End Document.

(** ** What a run leaves alone *)


Section Frame.
Context `{StrRepr}.
Implicit Types (p t v : json) (d : dict).

Lemma changes_only_refl keys v : changes_only keys v v.
Proof. by destruct v. Qed.

Lemma for_each_elementwise body (R : json → json → Prop) v v' :
  (∀ x x', body x = Some x' → R x x') →
  for_each body v = Some v' → elementwise R v v'.
Proof.
  intros HR Hv. assert ((∃ l, v = JArr l) ∨ ∀ l, v ≠ JArr l) as [[l ->]|Hn].
  { destruct v; eauto. }
  - apply for_each_list in Hv as (l' & -> & Hall). exists l'. split; [done|].
    induction Hall; constructor; eauto.
  - rewrite (for_each_other _ _ _ Hn Hv). destruct v; try done. by destruct (Hn l).
Qed.

Lemma update_target_frame t t' :
  update_target t = Some t' → target_frame t t'.
Proof.
  intros [(d & e & -> & He & ->)|[-> _]]%update_target_inv;
    [|apply changes_only_refl].
  intros k Hk. rewrite with_ref_id_get, dict_get_set_ne; [done|..]; other_key.
Qed.

Lemma update_panel_frame p p' : update_panel p = Some p' → panel_frame p p'.
Proof.
  intros Hp. destruct (update_panel_not_dict _ _ Hp) as [d ->].
  rewrite update_panel_dict in Hp. unfold panel_frame, at_key.
  destruct (dict_get (u "targets") d) as [ts|] eqn:Hts.
  - destruct (for_each update_target ts) as [ts'|] eqn:Hfe; [|done].
    injection Hp as <-. cbn [py_getitem changes_only]. rewrite Hts. split.
    + intros k Hk.
      rewrite with_description_get, dict_get_set_ne; [done|..]; other_key.
    + exists ts'. rewrite with_description_get, dict_get_set by done.
      split; [done|].
      eapply for_each_elementwise; [apply update_target_frame|done].
  - injection Hp as <-. cbn [py_getitem changes_only]. rewrite Hts. split.
    + intros k Hk. rewrite with_description_get; [done|]. other_key.
    + by rewrite with_description_get.
Qed.

Lemma update_panel_queries_frame panels name panels' :
  update_panel_queries panels name = Some panels' →
  elementwise panel_frame panels panels'.
Proof. apply for_each_elementwise, update_panel_frame. Qed.

(** C8. A run that does not raise leaves every top-level key other than
    ["dashboard"] as it was; in the dashboard it changes at most
    ["templating"], ["links"], ["annotations"] and ["panels"], and
    ["panels"] keeps its panels, in order; in a panel it changes at most
    ["targets"] and ["description"], and ["targets"] keeps its targets, in
    order; in a target it changes at most ["expr"] and ["refId"]. *)
Theorem enhance_frame name cfg data data' :
  enhance name cfg data = Some data' →
  changes_only [u "dashboard"] data data' ∧
  ∃ dashboard dashboard',
    dashboard_of data = Some dashboard ∧
    py_getitem data' (u "dashboard") = Some dashboard' ∧
    dashboard_frame dashboard dashboard'.
Proof.
  intros (kvs & d & d' & -> & Hd & -> & Hd')%enhance_inv. split.
  - intros k Hk. apply dict_get_set_ne. other_key.
  - exists (JObj d), (JObj d'). split; [done|]. split; [apply dict_get_set|].
    unfold dashboard_frame, at_key. simpl.
    destruct (dict_get (u "panels") d) as [panels|] eqn:Hp.
    + destruct Hd' as (panels' & Hu & ->). split.
      * intros k Hk. rewrite dict_get_set_ne, merged_get; [done|..]; other_key.
      * exists panels'. split; [apply dict_get_set|].
        by eapply update_panel_queries_frame.
    + subst d'. split.
      * intros k Hk. rewrite merged_get; [done|..]; other_key.
      * by rewrite merged_get by by_compute.
Qed.
End Frame.

(** ** What a run establishes *)

Section Post.
Context `{StrRepr}.
Implicit Types (p t v : json) (d : dict).

Lemma with_ref_id_value d :
  dict_get (u "refId") (with_ref_id d)
  = Some (default (JStr (u "A")) (dict_get (u "refId") d)).
Proof.
  unfold with_ref_id. case_bool_decide as Hd.
  - by destruct Hd as [r ->].
  - rewrite dict_get_set. destruct (dict_get (u "refId") d) eqn:Hr; [|done].
    destruct Hd. by eexists.
Qed.

Lemma update_target_post t t' : update_target t = Some t' → target_post t t'.
Proof.
  intros [(d & e & -> & He & ->)|[-> Hin]]%update_target_inv d' Heq Hex.
  - injection Heq as <-. exists d. split; [done|].
    by rewrite with_ref_id_value, dict_get_set_ne by by_compute.
  - subst t. simpl in Hin. injection Hin as Hin.
    by apply bool_decide_eq_false in Hin.
Qed.

Lemma with_description_value d :
  dict_get (u "description") (with_description d)
  = if needs_description d then Some (JStr (description_text d))
    else dict_get (u "description") d.
Proof.
  unfold with_description. destruct (needs_description d); [|done].
  apply dict_get_set.
Qed.

Lemma description_text_set k v d :
  k ≠ u "id" → k ≠ u "title" →
  description_text (dict_set k v d) = description_text d.
Proof. intros Hi Ht. unfold description_text. by rewrite !dict_get_set_ne. Qed.

Lemma needs_description_set k v d :
  k ≠ u "description" →
  needs_description (dict_set k v d) = needs_description d.
Proof. intros Hk. unfold needs_description. by rewrite dict_get_set_ne. Qed.

Lemma update_panel_post p p' : update_panel p = Some p' → panel_post p p'.
Proof.
  intros Hp. destruct (update_panel_not_dict _ _ Hp) as [d ->].
  rewrite update_panel_dict in Hp. unfold panel_post, at_key.
  destruct (dict_get (u "targets") d) as [ts|] eqn:Hts.
  - destruct (for_each update_target ts) as [ts'|] eqn:Hfe; [|done].
    injection Hp as <-.
    exists d, (with_description (dict_set (u "targets") ts' d)).
    split; [done|]. split; [done|]. split; [apply with_description_truth|].
    rewrite with_description_value, needs_description_set,
      description_text_set, dict_get_set_ne by by_compute.
    split; [by intros ->|]. split; [by intros ->|].
    cbn [py_getitem]. rewrite Hts, with_description_get, dict_get_set by by_compute.
    exists ts'. split; [done|].
    eapply for_each_elementwise; [apply update_target_post|done].
  - injection Hp as <-. exists d, (with_description d).
    split; [done|]. split; [done|]. split; [apply with_description_truth|].
    rewrite with_description_value.
    split; [by intros ->|]. split; [by intros ->|].
    cbn [py_getitem]. by rewrite Hts, with_description_get, Hts by by_compute.
Qed.

(** C10. After [update_panel_queries] has run without raising, every
    target that has an ["expr"] has a ["refId"], the one it had or ["A"]
    when it had none, and every panel has a description with a true
    truth value: the one it had, or ["Panel <id>: <title>"] when its
    description was missing or empty, where a missing id gives the empty
    text and a missing title gives ["No title"]. *)
Theorem update_panel_queries_post panels name panels' :
  update_panel_queries panels name = Some panels' →
  elementwise panel_post panels panels'.
Proof. apply for_each_elementwise, update_panel_post. Qed.
End Post.

(** ** Documents on which the routine does not raise *)

Section Total.
Context `{StrRepr}.

Lemma update_target_ok t : target_ok t = true → is_Some (update_target t).
Proof.
  destruct t as [| | | | | |d]; try done. simpl.
  destruct (dict_get (u "expr") d) as [[| | | |e| |]|] eqn:He; try done.
  - intros _. rewrite (update_target_dict _ _ He). by eexists.
  - intros _. unfold update_target. simpl. rewrite He. by eexists.
Qed.

Lemma for_each_ok body (ok : json → bool) l :
  (∀ x, ok x = true → is_Some (body x)) →
  forallb ok l = true → is_Some (for_each body (JArr l)).
Proof.
  intros Hok Hall. simpl. apply fmap_is_Some.
  induction l as [|x l IH]; [by eexists|].
  simpl in Hall. apply andb_true_iff in Hall as [Hx Hl].
  destruct (Hok x Hx) as [x' Hx'], (IH Hl) as [l' Hl'].
  exists (x' :: l'). simpl. by rewrite Hx', Hl'.
Qed.

Lemma update_panel_ok p : panel_ok p = true → is_Some (update_panel p).
Proof.
  destruct p as [| | | | | |d]; try done. simpl. rewrite update_panel_dict.
  destruct (dict_get (u "targets") d) as [[| | | | |ts|]|]; try done.
  intros [ts' Hts]%(for_each_ok update_target target_ok);
    [|apply update_target_ok].
  rewrite Hts. by eexists.
Qed.

Lemma enhance_total name cfg data :
  document_ok data = true → is_Some (enhance name cfg data).
Proof.
  destruct data as [| | | | | |kvs]; try done. simpl. rewrite enhance_dict.
  destruct (dict_get (u "dashboard") kvs) as [[| | | | | |d]|]; try done.
  simpl.
  destruct (dict_get (u "panels") d) as [[| | | | |ps|]|]; try done.
  intros [ps' Hps]%(for_each_ok update_panel panel_ok);
    [|apply update_panel_ok].
  unfold update_panel_queries. rewrite Hps. by eexists.
Qed.
End Total.

(** ** The update, said without the functions of the script *)

Section Replaced.
Context {A : Type} `{EqDecision A}.
Implicit Types (s t a old new : list A) (c : A).

(** The occurrence that starts first is the one replaced first. *)
Lemma replace_all_at_leftmost old new a t :
  old ≠ [] →
  (∀ a' t0, a ++ old ++ t = a' ++ old ++ t0 → length a ≤ length a') →
  replace_all old new (a ++ old ++ t) = a ++ new ++ replace_all old new t.
Proof.
  intros Hne. induction a as [|x a IH]; intros Hmin.
  - by apply (replace_all_match old).
  - rewrite <- !app_comm_cons, replace_all_cons; [|done|].
    + f_equal. apply IH. intros a' t0 Heq.
      specialize (Hmin (x :: a') t0). simpl in Hmin.
      rewrite Heq in Hmin. specialize (Hmin eq_refl). lia.
    + intros [v Hv]. specialize (Hmin [] v). simpl in Hmin.
      rewrite <- Hv in Hmin. specialize (Hmin eq_refl). lia.
Qed.

Lemma replace_all_replaced old new s :
  old ≠ [] → replaced old new s (replace_all old new s).
Proof.
  intros Hne. remember (length s) as n eqn:Hn.
  revert s Hn. induction (lt_wf n) as [n _ IH]; intros s ->.
  destruct (decide (contains old s = true)) as [Hc|Hc].
  - apply contains_infix, infix_of_leftmost in Hc as (a & t & -> & Hmin).
    rewrite replace_all_at_leftmost by done.
    apply replaced_leftmost; [done|]. apply (IH (length t)); [|done].
    rewrite !length_app. destruct old; [done|simpl; lia].
  - assert (¬ infix_of old s) as Hn.
    { apply contains_false. by destruct (contains old s). }
    rewrite replace_all_absent by done. by apply replaced_none.
Qed.

(** The relation leaves no choice. *)
Lemma replaced_replace_all old new s x :
  old ≠ [] → replaced old new s x → x = replace_all old new s.
Proof.
  intros Hne. induction 1 as [s Hs|a t t' Hmin _ IH].
  - by rewrite replace_all_absent.
  - by rewrite replace_all_at_leftmost, IH.
Qed.

Lemma split_on_absent c s : c ∉ s → split_on c s = [s].
Proof.
  induction s as [|x s IH]; [done|]. intros Hc. simpl.
  rewrite bool_decide_eq_false_2 by set_solver.
  rewrite IH; [done|]. set_solver.
Qed.

Lemma split_on_at_first c a b :
  c ∉ a → split_on c (a ++ c :: b) = a :: split_on c b.
Proof.
  induction a as [|x a IH]; intros Hc; simpl.
  - by rewrite bool_decide_eq_true_2.
  - rewrite bool_decide_eq_false_2 by set_solver.
    rewrite IH; [done|]. set_solver.
Qed.

Lemma split_on_single c s y : split_on c s = [y] → c ∉ s.
Proof.
  revert y. induction s as [|x s IH]; intros y; simpl;
    [intros _; apply not_elem_of_nil|].
  destruct (split_on_cons c s) as (z & zs & Heq). rewrite Heq in *.
  case_bool_decide as Hx; [done|].
  intros [= <- ->]. specialize (IH z eq_refl).
  by intros [?|?]%elem_of_cons.
Qed.

(** The last part starts after the last [c]. *)
Lemma split_on_last_after c a b :
  List.last (split_on c (a ++ c :: b)) [] = List.last (split_on c b) [].
Proof.
  induction a as [|x a IH]; simpl.
  - rewrite bool_decide_eq_true_2 by done.
    by destruct (split_on_cons c b) as (y & ys & ->).
  - destruct (split_on_cons c (a ++ c :: b)) as (y & ys & Heq).
    rewrite Heq in *. case_bool_decide; [done|].
    destruct ys as [|y' ys]; [|done].
    apply split_on_single in Heq. set_solver.
Qed.
End Replaced.

Section Updated.
Context `{StrRepr}.
Implicit Types (e x : pystr) (t p : json) (d : dict).

Lemma metric_name_text e : metric_text e (metric_name e).
Proof.
  unfold metric_text, metric_name.
  assert (∃ first rest,
    e = first ++ rest ∧ nth 0 (split_on 91%N e) [] = first ∧
    (91%N ∉ first) ∧ (rest = [] ∨ ∃ r, rest = 91%N :: r))
    as (first & rest & -> & -> & Hfirst & Hrest).
  { destruct (decide (91%N ∈ e)) as [Hin|Hout].
    - apply list_elem_of_split_l in Hin as (a & b & -> & Ha).
      exists a, (91%N :: b). rewrite split_on_at_first by done. eauto 10.
    - exists e, []. rewrite split_on_absent, app_nil_r by done. eauto 10. }
  assert (∃ pre mid,
    first = pre ++ mid ∧ List.last (split_on 40%N first) [] = mid ∧
    (40%N ∉ mid) ∧ (pre = [] ∨ ∃ q, pre = q ++ [40%N]))
    as (pre & mid & -> & -> & Hmid & Hpre).
  { destruct (decide (40%N ∈ first)) as [Hin|Hout].
    - apply list_elem_of_split_r in Hin as (a & b & -> & Hb).
      exists (a ++ [40%N]), b. rewrite split_on_last_after.
      rewrite split_on_absent, <- app_assoc by done. eauto 10.
    - exists [], first. rewrite split_on_absent by done. eauto 10. }
  exists pre, mid, rest. by rewrite <- app_assoc.
Qed.

Lemma add_namespace_filter_added e : namespace_added e (add_namespace_filter e).
Proof.
  destruct (decide (123%N ∈ e)) as [Hin|Hout].
  - left. apply list_elem_of_split_l in Hin as (a & b & -> & Ha).
    exists a, b. by rewrite add_namespace_filter_brace.
  - right. split; [done|]. exists (metric_name e).
    split; [apply metric_name_text|].
    rewrite add_namespace_filter_plain by done.
    destruct (decide (metric_name e = [])) as [->|Hne]; [by left|].
    right. split; [done|]. by apply replace_all_replaced.
Qed.

Lemma new_expr_updated e : expr_updated e (new_expr e).
Proof.
  exists (filtered e). split; [|by apply replace_all_replaced].
  unfold filtered, needs_filter.
  destruct (contains (u "namespace=") e) eqn:Hns; simpl.
  { left. split; [|done]. left. by apply contains_infix. }
  destruct (contains (u "birthday_scheduler_") e) eqn:Hbs.
  - right. split; [by apply contains_false|].
    split; [by apply contains_infix|]. apply add_namespace_filter_added.
  - left. split; [|done]. right. by apply contains_false.
Qed.

Lemma update_target_updated t t' :
  update_target t = Some t' → target_updated t t'.
Proof.
  intros Ht. split; [by apply update_target_frame|].
  split; [by apply update_target_post|].
  destruct (update_target_inv _ _ Ht) as [(d & e & -> & He & ->)|[-> Hin]].
  - split.
    + simpl. rewrite He. by rewrite bool_decide_eq_true_2.
    + intros d0 e0 [= <-] He0. rewrite He in He0. injection He0 as <-.
      exists (new_expr e). split; [|apply new_expr_updated]. simpl.
      by rewrite with_ref_id_get, dict_get_set by by_compute.
  - split; [done|]. intros d e -> He. simpl in Hin. rewrite He in Hin.
    by rewrite bool_decide_eq_true_2 in Hin.
Qed.

Lemma update_panel_updated p p' :
  update_panel p = Some p' → panel_updated p p'.
Proof.
  intros Hp. destruct (update_panel_frame _ _ Hp) as [Hframe _].
  split; [done|]. split; [by apply update_panel_post|].
  destruct (update_panel_not_dict _ _ Hp) as [d ->].
  rewrite update_panel_dict in Hp. unfold at_key. cbn [py_getitem].
  destruct (dict_get (u "targets") d) as [ts|] eqn:Hts.
  - destruct (for_each update_target ts) as [ts'|] eqn:Hfe; [|done].
    injection Hp as <-. cbn [py_getitem].
    rewrite with_description_get, dict_get_set by by_compute.
    exists ts'. split; [done|].
    eapply for_each_elementwise; [apply update_target_updated|done].
  - injection Hp as <-. cbn [py_getitem].
    by rewrite with_description_get by by_compute.
Qed.

Lemma update_panel_queries_updated panels name panels' :
  update_panel_queries panels name = Some panels' →
  elementwise panel_updated panels panels'.
Proof. apply for_each_elementwise, update_panel_updated. Qed.

Lemma alert_annotation_entry alert_filter :
  annotation_entry alert_filter (alert_annotation alert_filter).
Proof. split; [by eexists|done]. Qed.
End Updated.

(** ** The merged pieces *)

Section Merge.
Context `{StrRepr}.
Implicit Types (data : json) (d : dict) (cfg : config) (name : pystr).

(** The dashboard of the result and the three values stored in it. *)
Lemma enhance_merged name cfg data data' :
  enhance name cfg data = Some data' →
  ∃ d', py_getitem data' (u "dashboard") = Some (JObj d') ∧
    dict_get (u "templating") d' = Some (templating cfg) ∧
    dict_get (u "links") d' = Some (create_links (drill_down_links cfg)) ∧
    dict_get (u "annotations") d'
    = Some (create_annotations (alert_filter cfg)).
Proof.
  intros (kvs & d & d' & -> & _ & -> & Hd')%enhance_inv.
  exists d'. split; [apply dict_get_set|].
  destruct (dict_get (u "panels") d) as [panels|].
  - destruct Hd' as (panels' & _ & ->).
    rewrite !dict_get_set_ne by by_compute.
    by rewrite merged_templating, merged_links, merged_annotations.
  - subst d'. by rewrite merged_templating, merged_links, merged_annotations.
Qed.

(** C2. After a run that does not raise, the ["templating"] of the
    dashboard is [{"list": L}] where [L] is the four common variables
    datasource, namespace, instance, interval, in this order, followed by
    the specific variables of the configuration in their order; nothing of
    the document that was read is in it. *)
Theorem templating_replaced name cfg data data' :
  enhance name cfg data = Some data' →
  ∃ dashboard',
    py_getitem data' (u "dashboard") = Some dashboard' ∧
    py_getitem dashboard' (u "templating")
    = Some (JObj [(u "list",
                   JArr (get_common_variables ++
                         default [] (specific_variables cfg)))]) ∧
    (λ v, py_getitem v (u "name")) <$> get_common_variables
    = [Some (JStr (u "datasource")); Some (JStr (u "namespace"));
       Some (JStr (u "instance")); Some (JStr (u "interval"))].
Proof.
  intros (d' & Hd & Ht & _)%enhance_merged. by exists (JObj d').
Qed.

(** C5, as the script has it. After a run that does not raise, the
    ["annotations"] of the dashboard is the object [{"list": [entry]}]
    with exactly one entry, and the ["expr"] of the entry is
    [ALERTS{alertname=~"F", namespace="$namespace"}] where [F] is the
    alert filter of the configuration. *)
Theorem annotations_replaced name cfg data data' :
  enhance name cfg data = Some data' →
  ∃ dashboard' entry,
    py_getitem data' (u "dashboard") = Some dashboard' ∧
    py_getitem dashboard' (u "annotations")
    = Some (JObj [(u "list", JArr [entry])]) ∧
    py_getitem entry (u "expr")
    = Some (JStr (uq "ALERTS{alertname=~'" ++ alert_filter cfg ++
                  uq "', namespace='$namespace'}")).
Proof.
  intros (d' & Hd & _ & _ & Ha)%enhance_merged.
  by exists (JObj d'), (alert_annotation (alert_filter cfg)).
Qed.

Lemma create_link_entry link : link_entry link (create_link link).
Proof. split; [by eexists|done]. Qed.

(** C6. After a run that does not raise, the ["links"] of the dashboard
    is a list with one entry for each configured cross-link, in the same
    order; an entry has the title, url and tooltip of its cross-link,
    the icon ["dashboard"], the type ["link"] and [targetBlank] false,
    and no other key. *)
Theorem links_replaced name cfg data data' :
  enhance name cfg data = Some data' →
  ∃ dashboard' entries,
    py_getitem data' (u "dashboard") = Some dashboard' ∧
    py_getitem dashboard' (u "links") = Some (JArr entries) ∧
    Forall2 link_entry (drill_down_links cfg) entries.
Proof.
  intros (d' & Hd & _ & Hl & _)%enhance_merged.
  exists (JObj d'), (map create_link (drill_down_links cfg)).
  split; [done|]. split; [done|].
  clear. induction (drill_down_links cfg) as [|link links IH]; simpl;
    [constructor | constructor; [apply create_link_entry | done]].
Qed.

(** C7. For a file that holds a document: on a dashboard document the
    transformation does not raise; and whenever it does not raise,
    [enhance_dashboard] returns normally and has written to the same file
    the document read from it, changed only in its ["dashboard"], where
    the four enhancements are applied: ["templating"] is the common
    variables followed by the specific ones, ["links"] has one link for
    each configured cross-link, ["annotations"] has the one alert
    annotation of the configured filter, and every panel of ["panels"] has
    its target expressions rewritten, a [refId] for each of them, and a
    description. *)
Theorem enhance_dashboard_writes name cfg w data :
  files w !! name = Some (Document data) →
  (document_ok data = true → is_Some (enhance name cfg data)) ∧
  ∀ data', enhance name cfg data = Some data' →
    ∃ w' dashboard dashboard' entries annotation,
      enhance_dashboard name cfg w = (w', true) ∧
      files w' = <[name := Document data']> (files w) ∧
      changes_only [u "dashboard"] data data' ∧
      dashboard_of data = Some dashboard ∧
      py_getitem data' (u "dashboard") = Some dashboard' ∧
      py_getitem dashboard' (u "templating")
      = Some (JObj [(u "list",
                     JArr (get_common_variables ++
                           default [] (specific_variables cfg)))]) ∧
      (λ v, py_getitem v (u "name")) <$> get_common_variables
      = [Some (JStr (u "datasource")); Some (JStr (u "namespace"));
         Some (JStr (u "instance")); Some (JStr (u "interval"))] ∧
      py_getitem dashboard' (u "links") = Some (JArr entries) ∧
      Forall2 link_entry (drill_down_links cfg) entries ∧
      py_getitem dashboard' (u "annotations")
      = Some (JObj [(u "list", JArr [annotation])]) ∧
      annotation_entry (alert_filter cfg) annotation ∧
      at_key (u "panels") (elementwise panel_updated) dashboard dashboard'.
Proof.
  intros Hf. split; [apply enhance_total|]. intros data' He.
  unfold enhance_dashboard. cbn [print files]. rewrite Hf, He.
  destruct (enhance_merged _ _ _ _ He) as (d' & Hd & Ht & Hl & Ha).
  apply enhance_inv in He as (kvs & d & d2 & -> & Hd0 & -> & Hd2).
  cbn [py_getitem] in Hd. rewrite dict_get_set in Hd. injection Hd as ->.
  eexists _, (JObj d), (JObj d'), (map create_link (drill_down_links cfg)),
    (alert_annotation (alert_filter cfg)).
  split; [reflexivity|]. split; [reflexivity|].
  split; [intros k Hk; apply dict_get_set_ne; other_key|].
  split; [done|]. split; [apply dict_get_set|]. do 3 (split; [done|]).
  split.
  { clear. induction (drill_down_links cfg) as [|link links IH]; simpl;
      [constructor | constructor; [apply create_link_entry | done]]. }
  split; [done|]. split; [apply alert_annotation_entry|].
  unfold at_key. cbn [py_getitem].
  destruct (dict_get (u "panels") d) as [panels|] eqn:Hp.
  - destruct Hd2 as (panels' & Hu & ->). exists panels'.
    rewrite dict_get_set. split; [done|].
    by eapply update_panel_queries_updated.
  - subst d'. by rewrite merged_get by by_compute.
Qed.

(** C9. The transformation of the document is idempotent: on the result
    of a run that does not raise, a second run with the same configuration
    does not raise and gives the same document. *)
Theorem enhance_idempotent name cfg data data' :
  enhance name cfg data = Some data' → enhance name cfg data' = Some data'.
Proof.
  intros (kvs & d & d' & -> & _ & -> & Hd)%enhance_inv.
  rewrite enhance_dict, dict_get_set. simpl.
  destruct (dict_get (u "panels") d) as [panels|] eqn:Hp.
  - destruct Hd as (panels' & Hu & ->). rewrite dict_get_set.
    rewrite (update_panel_queries_idem _ _ _ Hu). simpl.
    rewrite dict_set_set. do 3 f_equal.
    rewrite merged_id.
    + f_equal. apply dict_set_id, dict_get_set.
    + rewrite dict_get_set_ne by by_compute. apply merged_templating.
    + rewrite dict_get_set_ne by by_compute. apply merged_links.
    + rewrite dict_get_set_ne by by_compute. apply merged_annotations.
  - subst d'. rewrite merged_get, Hp by by_compute.
    by rewrite merged_idem, dict_set_set.
Qed.
End Merge.

(** ** The loop of [main] *)

Section Main.
Context `{StrRepr}.
Implicit Types (w : world) (cfg : config) (name : pystr)
  (table : list (pystr * config)).

Lemma main_step_stdout w name cfg :
  stdout (main_step w (name, cfg))
  = stdout w ++ (outcome name cfg (files w !! name)).2.
Proof.
  unfold main_step, enhance_dashboard, outcome. cbn [print files].
  destruct (files w !! name) as [[|data]|]; simpl; [by rewrite <- app_assoc| |done].
  destruct (enhance name cfg data); simpl; by rewrite <- app_assoc.
Qed.

Lemma main_step_files w name cfg other :
  files (main_step w (name, cfg)) !! other
  = if decide (other = name) then (outcome name cfg (files w !! name)).1
    else files w !! other.
Proof.
  unfold main_step, enhance_dashboard, outcome. cbn [print files].
  destruct (files w !! name) as [[|data]|] eqn:Hf; simpl;
    [by case_decide; subst| |by case_decide; subst].
  destruct (enhance name cfg data); simpl.
  - case_decide; subst; [apply lookup_insert_eq | by apply lookup_insert_ne].
  - by case_decide; subst.
Qed.

(** Every entry of the table is handled from the content its own file had
    at the start, whatever became of the others. *)
Lemma main_loop_outcomes table w :
  NoDup table.*1 →
  stdout (main_loop table w)
  = stdout w ++ concat ((λ e, (outcome e.1 e.2 (files w !! e.1)).2) <$> table) ∧
  (∀ name cfg, (name, cfg) ∈ table →
     files (main_loop table w) !! name
     = (outcome name cfg (files w !! name)).1) ∧
  (∀ name, name ∉ table.*1 →
     files (main_loop table w) !! name = files w !! name).
Proof.
  revert w. induction table as [|[name cfg] table IH]; intros w Hnd.
  - simpl. rewrite app_nil_r. split; [done|]. split; [|done].
    intros ? ? Hin. by apply elem_of_nil in Hin.
  - rewrite fmap_cons in Hnd. apply NoDup_cons in Hnd as [Hname Hnd].
    cbn [main_loop foldl fst] in *.
    destruct (IH (main_step w (name, cfg)) Hnd) as (Hout & Hin & Hother).
    fold (main_loop table (main_step w (name, cfg))). split; [|split].
    + rewrite Hout, main_step_stdout, <- app_assoc. f_equal.
      rewrite fmap_cons. cbn [concat fst snd]. do 2 f_equal.
      apply list_fmap_ext. intros i [name' cfg'] Hi. cbn [fst snd].
      rewrite main_step_files, decide_False; [done|]. intros ->.
      apply Hname, list_elem_of_fmap. exists (name, cfg').
      split; [done|]. by eapply list_elem_of_lookup_2.
    + intros name' cfg' [Heq|Hin']%elem_of_cons.
      * injection Heq as -> ->. rewrite Hother by done.
        by rewrite main_step_files, decide_True.
      * rewrite (Hin _ _ Hin'), main_step_files, decide_False; [done|].
        intros ->. apply Hname, list_elem_of_fmap. by exists (name, cfg').
    + intros name' [Hne Hnotin]%not_elem_of_cons. rewrite Hother by done.
      by rewrite main_step_files, decide_False.
Qed.

Lemma visits_app out1 out2 : visits (out1 ++ out2) = visits out1 ++ visits out2.
Proof. apply omap_app. Qed.

Lemma visits_outcome name cfg f : visits (outcome name cfg f).2 = [name].
Proof.
  unfold outcome. destruct f as [[|data]|]; [done| |done].
  by destruct (enhance name cfg data).
Qed.

(** C4. When the directory exists, [main] ends with status 0 after it has
    visited every file of the configuration table exactly once, in the
    order of the table; each file is skipped when it does not exist, left
    as it was when enhancing it raises, and otherwise holds the enhanced
    document, whatever happened with the other files; the files that are
    not in the table are as they were. *)
Theorem main_visits_every_file (fs : gmap pystr file_content) :
  ∃ fs' out,
    main (Some fs) = (0%Z, Some fs', out) ∧
    visits out
    = [u "message-processing.json"; u "database.json";
       u "infrastructure.json"; u "overview-dashboard.json";
       u "security.json"] ∧
    visits out = DASHBOARD_CONFIGS.*1 ∧
    out = [Started] ++
          concat ((λ e, (outcome e.1 e.2 (fs !! e.1)).2) <$> DASHBOARD_CONFIGS) ++
          [Completed] ∧
    (∀ name cfg, (name, cfg) ∈ DASHBOARD_CONFIGS →
       fs' !! name = (outcome name cfg (fs !! name)).1) ∧
    (∀ name, name ∉ DASHBOARD_CONFIGS.*1 → fs' !! name = fs !! name).
Proof.
  set (w := print Started {| files := fs; stdout := [] |}).
  destruct (main_loop_outcomes DASHBOARD_CONFIGS w) as (Hout & Hin & Hother).
  { by_compute. }
  exists (files (main_loop DASHBOARD_CONFIGS w)),
    (stdout (main_loop DASHBOARD_CONFIGS w) ++ [Completed]).
  split; [done|]. rewrite Hout. cbn [w print files stdout app].
  assert (∀ table,
    visits (Started :: concat ((λ e, (outcome e.1 e.2 (fs !! e.1)).2) <$> table)
            ++ [Completed]) = table.*1) as Hvisits.
  { intros table. change (visits (Started :: ?l)) with (visits l).
    rewrite visits_app. change (visits [Completed]) with (@nil pystr).
    rewrite app_nil_r.
    induction table as [|[name cfg] table IH]; [done|].
    cbn [fmap list_fmap concat fst snd]. rewrite visits_app, visits_outcome.
    simpl. f_equal. apply IH. }
  split; [apply Hvisits|]. split; [apply Hvisits|]. by split.
Qed.
End Main.

(** ** The rewritten expression *)

Section Rewrite.
Implicit Types (e : pystr).

Lemma update_expr_filtered e :
  update_expr (JStr e) = Some (replace_window (filtered e)).
Proof. apply update_expr_str. Qed.

(** An expression that has [namespace=] or has no [birthday_scheduler_]
    gets no filter: only line 290 applies to it. *)
Lemma update_expr_no_filter e :
  contains (u "namespace=") e = true ∨
  contains (u "birthday_scheduler_") e = false →
  update_expr (JStr e) = Some (replace_window e).
Proof.
  intros He. rewrite update_expr_filtered. unfold filtered, needs_filter.
  by destruct He as [-> | ->]; rewrite ?andb_false_r.
Qed.

(** X7. An expression with a brace that needs the filter gets the two
    filters right after its first brace, before the filters it has, and
    then line 290 applies. *)
Theorem update_expr_brace a b :
  123%N ∉ a → needs_filter (a ++ u "{" ++ b) = true →
  update_expr (JStr (a ++ u "{" ++ b))
  = Some (replace_window
            (a ++ uq "{namespace='$namespace', instance=~'$instance', " ++ b)).
Proof.
  intros Ha Hn. rewrite update_expr_filtered. unfold filtered. rewrite Hn.
  change (u "{" ++ b) with (123%N :: b).
  by rewrite add_namespace_filter_brace.
Qed.

(** Without a brace, the label set goes after every occurrence of the
    text between the last parenthesis and the first bracket. *)
Lemma update_expr_plain e :
  123%N ∉ e → needs_filter e = true →
  update_expr (JStr e)
  = Some (replace_window
            (replace_all (metric_name e)
               (metric_name e ++
                uq "{namespace='$namespace', instance=~'$instance'}") e)).
Proof.
  intros He Hn. rewrite update_expr_filtered. unfold filtered. rewrite Hn.
  by rewrite add_namespace_filter_plain.
Qed.

(** C1, at an aggregation without window and without brace: the label set
    lands after the closing parenthesis, not after the metric name. *)
Theorem label_set_after_parenthesis :
  update_target
    (JObj [(u "expr", JStr (u "sum(birthday_scheduler_queue_depth)"))])
  = Some (JObj [(u "expr",
                 JStr (uq "sum(birthday_scheduler_queue_depth){namespace='$namespace', instance=~'$instance'}"));
                (u "refId", JStr (u "A"))]).
Proof. by vm_compute. Qed.

(** X10. Line 290 cuts the expression that reaches it at every [[5m]] and
    puts [[$interval]] in its place: the parts between the occurrences,
    where any other window is, are the same; no [[5m]] is left; and an
    expression without [[5m]] is unchanged by it. *)
Theorem window_replaced e :
  ∃ segs,
    Forall (λ x, ¬ infix_of (u "[5m]") x) segs ∧
    filtered e = join (u "[5m]") segs ∧
    update_expr (JStr e) = Some (join (u "[$interval]") segs) ∧
    ¬ infix_of (u "[5m]") (join (u "[$interval]") segs) ∧
    (¬ infix_of (u "[5m]") (filtered e) →
     update_expr (JStr e) = Some (filtered e)).
Proof.
  destruct (segments_exist (u "[5m]") (filtered e)) as (segs & _ & Hall & Heq);
    [done|].
  exists segs. rewrite update_expr_filtered. split; [done|]. split; [done|].
  rewrite Heq at 1. rewrite replace_window_join by done.
  split; [done|]. split; [by apply join_interval_free|].
  intros Hfree. f_equal. by apply replace_all_absent.
Qed.

(** C3, at a rate of a metric named [m] beside a metric of the scheduler:
    the label set is appended to every [m] of the expression, the one of
    the window too, so the [[5m]] of the target is not replaced by
    [[$interval]]; and a [[1m]] is altered in the same way. *)
Theorem window_broken_by_label_set :
  update_expr (JStr (u "rate(m[5m]) + birthday_scheduler_x"))
  = Some (uq "rate(m{namespace='$namespace', instance=~'$instance'}[5m{namespace='$namespace', instance=~'$instance'}]) + birthday_scheduler_x") ∧
  update_expr (JStr (u "rate(m[1m]) + birthday_scheduler_x"))
  = Some (uq "rate(m{namespace='$namespace', instance=~'$instance'}[1m{namespace='$namespace', instance=~'$instance'}]) + birthday_scheduler_x").
Proof. split; by vm_compute. Qed.
End Rewrite.

(** ** When the routine raises *)

Section Raises.
Context `{StrRepr}.
Implicit Types (t p v : json) (d : dict).

Lemma forallb_Forall {X} (f : X → bool) (l : list X) :
  forallb f l = true ↔ Forall (λ x, f x = true) l.
Proof.
  induction l as [|x l IH]; simpl.
  - split; [constructor | done].
  - rewrite andb_true_iff, IH, Forall_cons. done.
Qed.

Lemma update_target_runs t : is_Some (update_target t) ↔ target_runs t = true.
Proof.
  destruct t as [| | | |s|l|d]; simpl;
    try (split; [by intros [? ?] | done]).
  - unfold update_target. simpl. destruct (contains (u "expr") s); simpl.
    + split; [by intros [? ?] | done].
    + split; [done | by eexists].
  - unfold update_target. simpl.
    destruct (existsb (is_str (u "expr")) l); simpl.
    + split; [by intros [? ?] | done].
    + split; [done | by eexists].
  - destruct (dict_get (u "expr") d) as [v|] eqn:Hv.
    + destruct (update_expr v) as [e'|] eqn:He.
      * apply update_expr_inv in He as (e & -> & ->).
        rewrite (update_target_dict _ _ Hv). split; [done | by eexists].
      * assert (update_target (JObj d) = None) as ->.
        { unfold update_target. simpl. rewrite Hv.
          rewrite bool_decide_eq_true_2 by done. simpl. by rewrite He. }
        split; [by intros [? ?]|]. destruct v; try done.
        by rewrite update_expr_str in He.
    + split; [done|]. intros _. unfold update_target. simpl. rewrite Hv.
      rewrite bool_decide_eq_false_2 by by intros [? ?]. by eexists.
Qed.

Lemma for_each_runs body v :
  is_Some (for_each body v) ↔
  match v with
  | JArr l => Forall (λ x, is_Some (body x)) l
  | JStr s => Forall (λ c, is_Some (body (JStr [c]))) s
  | JObj d => Forall (λ kv, is_Some (body (JStr kv.1))) d
  | _ => False
  end.
Proof.
  assert (∀ (l : list json) (x : json),
    is_Some (_ ← mapM body l; Some x) ↔ Forall (λ y, is_Some (body y)) l)
    as Hdiscard.
  { intros l x. rewrite <- (mapM_is_Some body l).
    destruct (mapM body l); simpl; split; try done; by eexists. }
  destruct v as [| | | |s|l|d]; simpl; try (split; [by intros [? ?] | done]).
  - by rewrite Hdiscard, Forall_fmap.
  - by rewrite fmap_is_Some, mapM_is_Some.
  - by rewrite Hdiscard, Forall_fmap.
Qed.

Lemma targets_runs ts :
  is_Some (for_each update_target ts) ↔ targets_run ts = true.
Proof.
  rewrite for_each_runs. destruct ts as [| | | |s|l|d]; simpl; try done.
  - split; [done|]. intros _. apply Forall_forall. intros c _.
    apply update_target_runs. simpl.
    change (u "expr") with [101; 120; 112; 114]%N. simpl.
    by rewrite andb_false_r.
  - rewrite forallb_Forall. apply Forall_iff. intros t. apply update_target_runs.
  - rewrite forallb_Forall. apply Forall_iff. intros [k v]. simpl.
    rewrite (update_target_runs (JStr k)). done.
Qed.

Lemma update_panel_runs p : is_Some (update_panel p) ↔ panel_runs p = true.
Proof.
  destruct p as [| | | |s|l|d];
    try (split; [by intros [? [? ?]%update_panel_not_dict] | done]).
  rewrite update_panel_dict. simpl.
  destruct (dict_get (u "targets") d) as [ts|]; [|split; [done | by eexists]].
  rewrite <- targets_runs.
  destruct (for_each update_target ts); simpl; split; try done;
    by eexists.
Qed.

Lemma panels_runs panels :
  is_Some (for_each update_panel panels) ↔ panels_run panels = true.
Proof.
  rewrite for_each_runs.
  destruct panels as [| | | |s|l|d]; simpl; try done.
  - rewrite bool_decide_eq_true. destruct s as [|c s]; [done|].
    split; [|done]. intros Hall. apply Forall_cons in Hall as [[p Hp] _].
    by apply update_panel_not_dict in Hp as [? ?].
  - rewrite forallb_Forall. apply Forall_iff. intros p. apply update_panel_runs.
  - rewrite bool_decide_eq_true. destruct d as [|[k v] d]; [done|].
    split; [|done]. intros Hall. apply Forall_cons in Hall as [[p Hp] _].
    by apply update_panel_not_dict in Hp as [? ?].
Qed.

(** X1. [update_panel_queries] raises on exactly the values of ["panels"]
    that [panels_run] refuses: a list runs when every panel is an object
    whose ["targets"], if present, can be iterated and holds only targets
    whose ["expr"], if present, is a string; of the other values only the
    empty string and the empty object run. *)
Theorem update_panel_queries_runs panels name :
  is_Some (update_panel_queries panels name) ↔ panels_run panels = true.
Proof. apply panels_runs. Qed.

(** X2. The in-memory routine raises on exactly the documents that
    [document_runs] refuses, whatever the file name and the configuration:
    the document is an object, its ["dashboard"] (an empty object when
    absent) is an object, and its ["panels"], if present, run. *)
Theorem enhance_runs name cfg data :
  is_Some (enhance name cfg data) ↔ document_runs data = true.
Proof.
  destruct data as [| | | | | |kvs]; try (split; [by intros [? ?] | done]).
  rewrite enhance_dict. simpl.
  destruct (default (JObj []) (dict_get (u "dashboard") kvs))
    as [| | | | | |d]; try (split; [by intros [? ?] | done]).
  destruct (dict_get (u "panels") d) as [ps|]; [|split; [done | by eexists]].
  rewrite <- (panels_runs ps). unfold update_panel_queries.
  destruct (for_each update_panel ps); simpl; split; try done; by eexists.
Qed.
End Raises.

(** ** Running again *)

Section Again.
Context `{StrRepr}.
Implicit Types (k : pystr) (v : json) (d kvs : dict) (cfg : config).

Lemma dict_set_is_Some k k' v d :
  is_Some (dict_get k d) → is_Some (dict_get k (dict_set k' v d)).
Proof.
  intros Hk. destruct (decide (k' = k)) as [->|Hne].
  - rewrite dict_get_set. by eexists.
  - by rewrite dict_get_set_ne.
Qed.

(** Assigning to a key that is present commutes with any other
    assignment: the key keeps its place. *)
Lemma dict_set_present_comm k k' v v' d :
  k ≠ k' → is_Some (dict_get k d) →
  dict_set k v (dict_set k' v' d) = dict_set k' v' (dict_set k v d).
Proof.
  intros Hne. induction d as [|[k0 v0] d IH]; simpl; [by intros [? ?]|].
  destruct (decide (k = k0)) as [->|Hk].
  - intros _. rewrite decide_False by done. simpl.
    by rewrite decide_True, decide_False.
  - intros Hd. destruct (decide (k' = k0)) as [->|Hk']; simpl.
    + by rewrite decide_False, decide_True.
    + by rewrite !decide_False, IH.
Qed.

(** The three values of a second configuration take the places of those
    of the first. *)
Lemma merged_merged cfg1 cfg2 d : merged cfg2 (merged cfg1 d) = merged cfg2 d.
Proof.
  unfold merged.
  rewrite (dict_set_present_comm (u "templating") (u "annotations"));
    [|by_compute|].
  2:{ apply dict_set_is_Some. rewrite dict_get_set. by eexists. }
  rewrite (dict_set_present_comm (u "templating") (u "links"));
    [|by_compute|rewrite dict_get_set; by eexists].
  rewrite dict_set_set.
  rewrite (dict_set_present_comm (u "links") (u "annotations"));
    [|by_compute|rewrite dict_get_set; by eexists].
  by rewrite dict_set_set, dict_set_set.
Qed.

Lemma merged_panels cfg panels d :
  is_Some (dict_get (u "panels") d) →
  merged cfg (dict_set (u "panels") panels d)
  = dict_set (u "panels") panels (merged cfg d).
Proof.
  intros Hp. unfold merged.
  rewrite <- (dict_set_present_comm (u "panels") (u "templating"))
    by (done || by_compute).
  rewrite <- (dict_set_present_comm (u "panels") (u "links"))
    by (by_compute || by apply dict_set_is_Some).
  by rewrite <- (dict_set_present_comm (u "panels") (u "annotations"))
    by (by_compute || by do 2 apply dict_set_is_Some).
Qed.

(** A run on the result of a run, with any configuration, is a run on
    the document itself with that configuration. *)
Lemma enhance_then name cfg1 cfg2 data data1 :
  enhance name cfg1 data = Some data1 →
  enhance name cfg2 data1 = enhance name cfg2 data.
Proof.
  intros (kvs & d & d1 & -> & Hd0 & -> & Hd)%enhance_inv.
  injection Hd0 as Hd0. rewrite !enhance_dict, dict_get_set, Hd0. simpl.
  destruct (dict_get (u "panels") d) as [panels|] eqn:Hp.
  - destruct Hd as (panels' & Hu & ->). rewrite dict_get_set, Hu. simpl.
    rewrite (update_panel_queries_idem _ _ _ Hu). simpl.
    rewrite dict_set_set, merged_panels, merged_merged, dict_set_set;
      [done|].
    rewrite merged_get, Hp by by_compute. by eexists.
  - subst d1. rewrite merged_get, Hp by by_compute.
    by rewrite merged_merged, dict_set_set.
Qed.

(** X6. A run with one configuration followed by a run with another
    gives what the second configuration alone gives on the original
    document: nothing of the first configuration is left. *)
Theorem enhance_last_configuration name cfg1 cfg2 data data1 data2 :
  enhance name cfg1 data = Some data1 →
  enhance name cfg2 data1 = Some data2 →
  enhance name cfg2 data = Some data2.
Proof. intros H1 H2. by rewrite <- (enhance_then _ _ _ _ _ H1). Qed.

Lemma outcome_again name cfg f :
  outcome name cfg (outcome name cfg f).1 = outcome name cfg f.
Proof.
  unfold outcome. destruct f as [[|data]|]; [done| |done].
  destruct (enhance name cfg data) as [data'|] eqn:He; simpl.
  - by rewrite (enhance_then _ _ _ _ _ He), He.
  - by rewrite He.
Qed.

Lemma outcome_is_Some name cfg f :
  is_Some (outcome name cfg f).1 ↔ is_Some f.
Proof.
  unfold outcome. destruct f as [[|data]|]; [done| |done].
  destruct (enhance name cfg data); simpl; split; intros _; by eexists.
Qed.

Lemma table_entry (table : list (pystr * config)) name :
  name ∈ table.*1 → ∃ cfg, (name, cfg) ∈ table.
Proof. intros ([name' cfg] & -> & Hin)%list_elem_of_fmap. by exists cfg. Qed.

(** The loop on the directory it has left finds nothing more to do and
    prints the same. *)
Lemma main_loop_again table w w' :
  NoDup table.*1 →
  files w' = files (main_loop table w) →
  files (main_loop table w') = files w' ∧
  stdout (main_loop table w')
  = stdout w' ++
    concat ((λ e, (outcome e.1 e.2 (files w !! e.1)).2) <$> table).
Proof.
  intros Hnd Hw'.
  destruct (main_loop_outcomes table w Hnd) as (_ & Hin & _).
  destruct (main_loop_outcomes table w' Hnd) as (Hout' & Hin' & Hother').
  split.
  - apply map_eq. intros name.
    destruct (decide (name ∈ table.*1)) as [Hname|Hname]; [|by apply Hother'].
    destruct (table_entry _ _ Hname) as [cfg Hcfg].
    rewrite (Hin' _ _ Hcfg), Hw', (Hin _ _ Hcfg). by rewrite outcome_again.
  - rewrite Hout'. f_equal. f_equal. apply list_fmap_ext.
    intros i [name cfg] Hi. cbn [fst snd].
    rewrite Hw', (Hin name cfg) by by eapply list_elem_of_lookup_2.
    by rewrite outcome_again.
Qed.

Lemma table_names : NoDup DASHBOARD_CONFIGS.*1.
Proof. by_compute. Qed.

(** X4. A second run of [main] on the directory the first run has left
    changes no file and prints what the first run printed. *)
Theorem main_again (fs fs' : gmap pystr file_content) status out :
  main (Some fs) = (status, Some fs', out) →
  main (Some fs') = (status, Some fs', out).
Proof.
  unfold main. intros Hmain.
  apply pair_equal_spec in Hmain as [Hmain <-].
  apply pair_equal_spec in Hmain as [<- Hfs]. apply (inj Some) in Hfs as <-.
  set (w := print Started {| files := fs; stdout := [] |}).
  set (w' := print Started
               {| files := files (main_loop DASHBOARD_CONFIGS w);
                  stdout := [] |}).
  destruct (main_loop_again DASHBOARD_CONFIGS w w' table_names eq_refl)
    as [Hfiles Hout].
  destruct (main_loop_outcomes DASHBOARD_CONFIGS w table_names)
    as (Hout0 & _ & _).
  rewrite Hfiles, Hout, Hout0. reflexivity.
Qed.

(** X5. [main] creates no file and deletes none, ends with status 0
    when the directory exists, and a file that cannot be parsed stays as
    it is. *)
Theorem main_keeps_directory (fs : gmap pystr file_content) :
  ∃ fs' out,
    main (Some fs) = (0%Z, Some fs', out) ∧
    dom fs' = dom fs ∧
    ∀ name, fs !! name = Some Unparsable → fs' !! name = Some Unparsable.
Proof.
  eexists _, _. split; [reflexivity|].
  set (w := print Started {| files := fs; stdout := [] |}).
  destruct (main_loop_outcomes DASHBOARD_CONFIGS w table_names)
    as (_ & Hin & Hother).
  split.
  - apply set_eq. intros name. rewrite !elem_of_dom.
    destruct (decide (name ∈ DASHBOARD_CONFIGS.*1)) as [Hname|Hname].
    + destruct (table_entry _ _ Hname) as [cfg Hcfg].
      rewrite (Hin _ _ Hcfg). apply outcome_is_Some.
    + by rewrite (Hother _ Hname).
  - intros name Hfile.
    destruct (decide (name ∈ DASHBOARD_CONFIGS.*1)) as [Hname|Hname].
    + destruct (table_entry _ _ Hname) as [cfg Hcfg].
      rewrite (Hin _ _ Hcfg). cbn [w print files]. by rewrite Hfile.
    + by rewrite (Hother _ Hname).
Qed.

End Again.

(** ** More on the rewritten expression *)

Section Rewrite2.
Implicit Types (e a b m : pystr).

(** An occurrence that is the only one is replaced, and nothing else. *)
Lemma replace_all_only (old new a t : pystr) :
  old ≠ [] →
  (∀ x y, a ++ old ++ t = x ++ old ++ y → x = a) →
  replace_all old new (a ++ old ++ t) = a ++ new ++ t.
Proof.
  intros Hne Honly. rewrite replace_all_at_leftmost; [|done|].
  - do 2 f_equal. apply replace_all_absent. intros (x & y & ->).
    specialize (Honly (a ++ old ++ x) y). rewrite <- !app_assoc in Honly.
    specialize (Honly eq_refl). apply (f_equal length) in Honly.
    rewrite !length_app in Honly. destruct old; [done|simpl in Honly; lia].
  - intros a' t0 Heq. by rewrite (Honly _ _ Heq).
Qed.

(** X8. An expression that already has [namespace=], or that names no
    metric of the scheduler, and that has no [[5m]] window is returned
    unchanged. *)
Theorem update_expr_unrelated e :
  contains (u "namespace=") e = true ∨
  contains (u "birthday_scheduler_") e = false →
  ¬ infix_of (u "[5m]") e →
  update_expr (JStr e) = Some e.
Proof.
  intros He Hw. rewrite update_expr_no_filter by done.
  f_equal. by apply replace_all_absent.
Qed.

(** X9. An expression that names a metric of the scheduler is always
    rewritten (no string makes [update_expr] raise), the result has a
    [namespace=] filter and no [[5m]] is left in it. *)
Theorem update_expr_namespace e :
  contains (u "birthday_scheduler_") e = true →
  ∃ e', update_expr (JStr e) = Some e' ∧
    contains (u "namespace=") e' = true ∧
    contains (u "[5m]") e' = false.
Proof.
  intros Hbs. exists (new_expr e). split; [apply update_expr_str|]. split.
  - unfold new_expr. rewrite replace_window_namespace.
    unfold filtered, needs_filter. rewrite Hbs, andb_true_r.
    destruct (contains (u "namespace=") e) eqn:Hns; [done|].
    apply add_namespace_filter_namespace.
  - apply contains_false, replace_window_free.
Qed.

(** X11. The usual shape, a call [a(m[b] whose argument [m] is written
    without spaces around it, has no brace and occurs only there: the
    label set goes between the metric name and its window, and then
    line 290 applies. *)
Theorem update_expr_call a m b :
  let e := a ++ u "(" ++ m ++ u "[" ++ b in
  needs_filter e = true → 123%N ∉ e →
  91%N ∉ a → 91%N ∉ m → 40%N ∉ m → m ≠ [] → strip m = m →
  (∀ x y, e = x ++ m ++ y → x = a ++ u "(") →
  update_expr (JStr e)
  = Some (replace_window
            (a ++ u "(" ++ m ++
             uq "{namespace='$namespace', instance=~'$instance'}" ++
             u "[" ++ b)).
Proof.
  intros e Hn Hbrace Ha Hm91 Hm40 Hne Hstrip Honly.
  rewrite update_expr_plain by done. do 2 f_equal.
  assert (metric_name e = m) as ->.
  { unfold metric_name, e.
    replace (a ++ u "(" ++ m ++ u "[" ++ b)
      with ((a ++ u "(" ++ m) ++ 91%N :: b) by by rewrite <- !app_assoc.
    rewrite split_on_at_first.
    2:{ rewrite !not_elem_of_app. split; [done|]. split; [by_compute|done]. }
    simpl. rewrite split_on_last_after, split_on_absent by done. done. }
  unfold e. rewrite (app_assoc a (u "(")).
  rewrite (replace_all_only m); [by rewrite <- !app_assoc|done|].
  intros x y Heq. rewrite <- app_assoc in Heq. by apply Honly in Heq.
Qed.
End Rewrite2.

(** ** The order of the keys *)

Section Keys.
Context `{StrRepr}.
Implicit Types (k : pystr) (v : json) (d kvs : dict).

(** An assignment keeps the keys in their order and puts a new key last. *)
Lemma dict_set_keys k v d :
  (dict_set k v d).*1 = d.*1 ++ filter (λ k', k' ∉ d.*1) [k].
Proof.
  induction d as [|[k0 v0] d IH]; [done|]. cbn [dict_set].
  destruct (decide (k = k0)) as [->|Hne]; rewrite !fmap_cons; cbn [fst].
  - rewrite filter_cons_False, filter_nil, app_nil_r; [done|].
    intros Hk. apply Hk. left.
  - rewrite IH. f_equal. f_equal.
    rewrite !filter_cons, !filter_nil.
    destruct (decide (k ∉ d.*1)) as [Hk|Hk].
    + rewrite decide_True; [done|]. by intros [?|?]%elem_of_cons.
    + rewrite decide_False; [done|]. intros Hk'. apply Hk. intros Hin.
      apply Hk'. by right.
Qed.

Lemma dict_set_keys_present k v d :
  is_Some (dict_get k d) → (dict_set k v d).*1 = d.*1.
Proof.
  induction d as [|[k0 v0] d IH]; cbn [dict_set dict_get]; [by intros [? ?]|].
  destruct (decide (k = k0)) as [->|Hne]; rewrite !fmap_cons; [done|].
  intros Hk. by rewrite IH.
Qed.

Lemma merged_keys cfg d :
  (merged cfg d).*1
  = d.*1 ++
    filter (λ k, k ∉ d.*1) [u "templating"; u "links"; u "annotations"].
Proof.
  unfold merged. rewrite !dict_set_keys, <- !app_assoc. f_equal.
  rewrite !filter_cons, !filter_nil.
  assert (u "links" ≠ u "templating") as H1 by by_compute.
  assert (u "annotations" ≠ u "templating") as H2 by by_compute.
  assert (u "annotations" ≠ u "links") as H3 by by_compute.
  destruct (decide (u "templating" ∉ d.*1)) as [Ht|Ht];
    destruct (decide (u "links" ∉ d.*1)) as [Hl|Hl];
    destruct (decide (u "annotations" ∉ d.*1)) as [Ha|Ha];
    repeat (first [ rewrite decide_True by
                      (rewrite ?not_elem_of_app, ?not_elem_of_cons;
                       repeat split; try done; apply not_elem_of_nil)
                  | rewrite decide_False by
                      (rewrite ?not_elem_of_app; tauto) ]);
    by rewrite ?app_nil_r.
Qed.

(** X12. A run keeps the keys of the document and of its dashboard in
    their order; ["dashboard"] is added last when the document had none,
    and of ["templating"], ["links"] and ["annotations"] those that the
    dashboard did not have are added last, in this order. *)
Theorem enhance_key_order name cfg data data' :
  enhance name cfg data = Some data' →
  ∃ dashboard dashboard',
    dashboard_of data = Some dashboard ∧
    py_getitem data' (u "dashboard") = Some dashboard' ∧
    keys data' = keys data ++ filter (λ k, k ∉ keys data) [u "dashboard"] ∧
    keys dashboard'
    = keys dashboard ++
      filter (λ k, k ∉ keys dashboard)
        [u "templating"; u "links"; u "annotations"].
Proof.
  intros (kvs & d & d' & -> & Hd & -> & Hd')%enhance_inv.
  exists (JObj d), (JObj d'). split; [done|]. split; [apply dict_get_set|].
  split; [apply dict_set_keys|]. simpl.
  destruct (dict_get (u "panels") d) as [panels|] eqn:Hp.
  - destruct Hd' as (panels' & _ & ->).
    rewrite dict_set_keys_present; [apply merged_keys|].
    rewrite merged_get, Hp by by_compute. by eexists.
  - subst d'. apply merged_keys.
Qed.
End Keys.

(** ** Dashboard documents stay dashboard documents *)

Section Shape.
Context `{StrRepr}.
Implicit Types (t p v : json) (d : dict).

Lemma update_target_keeps_ok t t' :
  update_target t = Some t' → target_ok t = true → target_ok t' = true.
Proof.
  intros [(d & e & -> & He & ->)|[-> _]]%update_target_inv; [|done].
  intros _. simpl. by rewrite with_ref_id_get, dict_get_set by by_compute.
Qed.

Lemma Forall2_keeps_ok (f : json → option json) (ok : json → bool) l l' :
  (∀ x x', f x = Some x' → ok x = true → ok x' = true) →
  Forall2 (λ x x', f x = Some x') l l' →
  forallb ok l = true → forallb ok l' = true.
Proof.
  intros Hok. induction 1 as [|x x' l l' Hx _ IH]; [done|]. simpl.
  rewrite !andb_true_iff. intros [? ?]. split; [by eapply Hok | by apply IH].
Qed.

Lemma update_panel_keeps_ok p p' :
  update_panel p = Some p' → panel_ok p = true → panel_ok p' = true.
Proof.
  intros Hp. destruct (update_panel_not_dict _ _ Hp) as [d ->].
  rewrite update_panel_dict in Hp. simpl.
  destruct (dict_get (u "targets") d) as [ts|] eqn:Hts.
  - destruct (for_each update_target ts) as [ts'|] eqn:Hfe; [|done].
    injection Hp as <-. simpl.
    rewrite with_description_get, dict_get_set by by_compute.
    destruct ts as [| | | | |l|]; try done.
    apply for_each_list in Hfe as (l' & -> & Hall).
    apply (Forall2_keeps_ok update_target target_ok);
      [apply update_target_keeps_ok | done].
  - injection Hp as <-. simpl.
    by rewrite with_description_get, Hts by by_compute.
Qed.

(** X13. The result of a run on a dashboard document is a dashboard
    document. *)
Theorem enhance_keeps_shape name cfg data data' :
  enhance name cfg data = Some data' →
  document_ok data = true → document_ok data' = true.
Proof.
  intros (kvs & d & d' & -> & Hd & -> & Hd')%enhance_inv. injection Hd as Hd.
  simpl. rewrite dict_get_set. simpl.
  destruct (dict_get (u "dashboard") kvs) as [v|]; simpl in Hd; subst.
  - simpl. destruct (dict_get (u "panels") d) as [panels|] eqn:Hp.
    + destruct Hd' as (panels' & Hu & ->). rewrite dict_get_set.
      destruct panels as [| | | | |l|]; try done.
      apply for_each_list in Hu as (l' & -> & Hall).
      apply (Forall2_keeps_ok update_panel panel_ok);
        [apply update_panel_keeps_ok | done].
    + subst d'. by rewrite merged_get, Hp by by_compute.
  - intros _. injection Hd as <-. simpl in Hd'. by subst d'.
Qed.
End Shape.

Section Positions.
Context {A : Type} `{EqDecision A}.
Implicit Types (p s x y : list A).

(** Counting the places where [p] starts decides that it occurs once. *)
Lemma positions_only p s k :
  positions p s = [k] → ∀ x y, s = x ++ p ++ y → length x = k.
Proof.
  intros Hpos x y ->.
  assert (length x ∈ positions p (x ++ p ++ y)) as Hin.
  { apply list_elem_of_filter. split.
    - rewrite drop_app_length. apply starts_with_app.
    - apply elem_of_seq. rewrite length_app. lia. }
  rewrite Hpos in Hin. by apply list_elem_of_singleton in Hin.
Qed.

Lemma positions_only_prefix p s a t :
  positions p s = [length a] → s = a ++ t →
  ∀ x y, s = x ++ p ++ y → x = a.
Proof.
  intros Hpos -> x y Heq.
  pose proof (positions_only _ _ _ Hpos x y Heq) as Hlen.
  apply (f_equal (take (length a))) in Heq.
  rewrite take_app_length in Heq. rewrite <- Hlen in Heq.
  by rewrite take_app_length in Heq.
Qed.
End Positions.

(** ** Examples *)

Section Examples.
#[local] Existing Instance plain_repr.

Example strip_example : strip (u "  a b ") = u "a b".
Proof. by vm_compute. Qed.

Example replace_all_example :
  replace_all (u "aa") (u "X") (u "caaab") = u "cXab".
Proof. by vm_compute. Qed.

Example replace_all_empty_example :
  replace_all (u "") (u "X") (u "abc") = u "XaXbXcX".
Proof. by vm_compute. Qed.

Example split_on_example :
  split_on 40%N (u "sum(rate(x") = [u "sum"; u "rate"; u "x"].
Proof. by vm_compute. Qed.

(** The usual case: a rate over a window. *)
Example update_expr_rate :
  update_expr (JStr (u "rate(birthday_scheduler_api_requests_total[5m])"))
  = Some (uq "rate(birthday_scheduler_api_requests_total{namespace='$namespace', instance=~'$instance'}[$interval])").
Proof. by vm_compute. Qed.

Example update_expr_braces :
  update_expr (JStr (uq "birthday_scheduler_queue_depth{queue='dlq'}"))
  = Some (uq "birthday_scheduler_queue_depth{namespace='$namespace', instance=~'$instance', queue='dlq'}").
Proof. by vm_compute. Qed.

(** Other windows stay. *)
Example update_expr_other_windows :
  update_expr (JStr (u "rate(a[1m]) + rate(b[10m]) + rate(c[5m])"))
  = Some (u "rate(a[1m]) + rate(b[10m]) + rate(c[$interval])").
Proof. by vm_compute. Qed.

(** Two targets without [refId] both get ["A"]. *)
Example shared_ref_id :
  for_each update_target
    (JArr [JObj [(u "expr", JStr (u "up"))];
           JObj [(u "expr", JStr (u "down"))]])
  = Some (JArr [JObj [(u "expr", JStr (u "up")); (u "refId", JStr (u "A"))];
                JObj [(u "expr", JStr (u "down")); (u "refId", JStr (u "A"))]]).
Proof. by vm_compute. Qed.

Example default_description_example :
  default_description (JObj [(u "id", JInt 7)])
  = Some (u "Panel 7: No title").
Proof. by vm_compute. Qed.

(** A panel that is a string makes the routine raise. *)
Example enhance_raises :
  enhance (u "database.json") database_config
    (JObj [(u "dashboard", JObj [(u "panels", JArr [JStr (u "row")])])])
  = None.
Proof. by vm_compute. Qed.

(** One file is missing, one cannot be parsed, one makes the routine
    raise, two are enhanced: all five are visited. *)
Example main_example :
  let broken := JObj [(u "dashboard", JNull)] in
  let fs : gmap pystr file_content :=
    {[ u "database.json" := Document sample_document;
       u "infrastructure.json" := Unparsable;
       u "overview-dashboard.json" := Document broken;
       u "security.json" := Document (JObj []) ]} in
  ∃ fs', main (Some fs)
         = (0%Z, Some fs',
            [Started;
             NotFound (u "message-processing.json");
             Enhancing (u "database.json"); Enhanced (u "database.json");
             Enhancing (u "infrastructure.json");
             ErrorEnhancing (u "infrastructure.json");
             Enhancing (u "overview-dashboard.json");
             ErrorEnhancing (u "overview-dashboard.json");
             Enhancing (u "security.json"); Enhanced (u "security.json");
             Completed]) ∧
    fs' !! u "database.json" = Some (Document sample_enhanced) ∧
    fs' !! u "overview-dashboard.json" = Some (Document broken).
Proof. eexists. split; [reflexivity|]. split; by vm_compute. Qed.
(** *** The theorems at the sample document *)

Example sample_enhance :
  enhance (u "database.json") database_config sample_document
  = Some sample_enhanced.
Proof. by vm_compute. Qed.

Lemma templating_replaced_witness :
  enhance (u "database.json") database_config sample_document
  = Some sample_enhanced ∧
  ∃ dashboard',
    py_getitem sample_enhanced (u "dashboard") = Some dashboard' ∧
    py_getitem dashboard' (u "templating")
    = Some (JObj [(u "list",
                   JArr (get_common_variables ++
                         default [] (specific_variables database_config)))]) ∧
    (λ v, py_getitem v (u "name")) <$> get_common_variables
    = [Some (JStr (u "datasource")); Some (JStr (u "namespace"));
       Some (JStr (u "instance")); Some (JStr (u "interval"))].
Proof.
  split; [vm_compute; reflexivity|].
  apply (templating_replaced (u "database.json") database_config
           sample_document sample_enhanced).
  vm_compute. reflexivity.
Defined.

(** C5, as the claim has it, fails: the ["annotations"] of the enhanced
    sample is an object with the key ["list"], not a list of one entry. *)
Lemma annotations_not_a_list :
  enhance (u "database.json") database_config sample_document
  = Some sample_enhanced ∧
  ∃ dashboard',
    py_getitem sample_enhanced (u "dashboard") = Some dashboard' ∧
    py_getitem dashboard' (u "annotations")
    = Some (JObj [(u "list",
                   JArr [alert_annotation (alert_filter database_config)])]) ∧
    ¬ ∃ entry, py_getitem dashboard' (u "annotations") = Some (JArr [entry]).
Proof.
  split; [vm_compute; reflexivity|].
  eexists. split; [vm_compute; reflexivity|].
  split; [vm_compute; reflexivity|].
  intros [entry Hentry]. vm_compute in Hentry. discriminate Hentry.
Qed.

Lemma annotations_replaced_witness :
  enhance (u "database.json") database_config sample_document
  = Some sample_enhanced ∧
  ∃ dashboard' entry,
    py_getitem sample_enhanced (u "dashboard") = Some dashboard' ∧
    py_getitem dashboard' (u "annotations")
    = Some (JObj [(u "list", JArr [entry])]) ∧
    py_getitem entry (u "expr")
    = Some (JStr (uq "ALERTS{alertname=~'" ++ alert_filter database_config ++
                  uq "', namespace='$namespace'}")).
Proof.
  split; [vm_compute; reflexivity|].
  apply (annotations_replaced (u "database.json") database_config
           sample_document sample_enhanced).
  vm_compute. reflexivity.
Defined.

Lemma links_replaced_witness :
  enhance (u "database.json") database_config sample_document
  = Some sample_enhanced ∧
  ∃ dashboard' entries,
    py_getitem sample_enhanced (u "dashboard") = Some dashboard' ∧
    py_getitem dashboard' (u "links") = Some (JArr entries) ∧
    Forall2 link_entry (drill_down_links database_config) entries.
Proof.
  split; [vm_compute; reflexivity|].
  apply (links_replaced (u "database.json") database_config
           sample_document sample_enhanced).
  vm_compute. reflexivity.
Defined.

Lemma enhance_dashboard_writes_witness :
  files sample_world !! u "database.json" = Some (Document sample_document) ∧
  (document_ok sample_document = true →
   is_Some (enhance (u "database.json") database_config sample_document)) ∧
  ∀ data',
    enhance (u "database.json") database_config sample_document = Some data' →
    ∃ w' dashboard dashboard' entries annotation,
      enhance_dashboard (u "database.json") database_config sample_world
      = (w', true) ∧
      files w' = <[u "database.json" := Document data']> (files sample_world) ∧
      changes_only [u "dashboard"] sample_document data' ∧
      dashboard_of sample_document = Some dashboard ∧
      py_getitem data' (u "dashboard") = Some dashboard' ∧
      py_getitem dashboard' (u "templating")
      = Some (JObj [(u "list",
                     JArr (get_common_variables ++
                           default [] (specific_variables database_config)))]) ∧
      (λ v, py_getitem v (u "name")) <$> get_common_variables
      = [Some (JStr (u "datasource")); Some (JStr (u "namespace"));
         Some (JStr (u "instance")); Some (JStr (u "interval"))] ∧
      py_getitem dashboard' (u "links") = Some (JArr entries) ∧
      Forall2 link_entry (drill_down_links database_config) entries ∧
      py_getitem dashboard' (u "annotations")
      = Some (JObj [(u "list", JArr [annotation])]) ∧
      annotation_entry (alert_filter database_config) annotation ∧
      at_key (u "panels") (elementwise panel_updated) dashboard dashboard'.
Proof.
  split; [vm_compute; reflexivity|].
  apply (enhance_dashboard_writes (u "database.json") database_config
           sample_world sample_document).
  vm_compute. reflexivity.
Defined.

(** The sample is a dashboard document, and the file is written. *)
Example sample_written :
  document_ok sample_document = true ∧
  (enhance_dashboard (u "database.json") database_config sample_world).2
  = true ∧
  files (enhance_dashboard (u "database.json") database_config sample_world).1
    !! u "database.json" = Some (Document sample_enhanced).
Proof. split; [|split]; by vm_compute. Qed.

Lemma enhance_frame_witness :
  enhance (u "database.json") database_config sample_document
  = Some sample_enhanced ∧
  changes_only [u "dashboard"] sample_document sample_enhanced ∧
  ∃ dashboard dashboard',
    dashboard_of sample_document = Some dashboard ∧
    py_getitem sample_enhanced (u "dashboard") = Some dashboard' ∧
    dashboard_frame dashboard dashboard'.
Proof.
  split; [vm_compute; reflexivity|].
  apply (enhance_frame (u "database.json") database_config
           sample_document sample_enhanced).
  vm_compute. reflexivity.
Defined.

Lemma enhance_idempotent_witness :
  enhance (u "database.json") database_config sample_document
  = Some sample_enhanced ∧
  enhance (u "database.json") database_config sample_enhanced
  = Some sample_enhanced.
Proof.
  split; [vm_compute; reflexivity|].
  apply (enhance_idempotent (u "database.json") database_config
           sample_document sample_enhanced).
  vm_compute. reflexivity.
Defined.

Lemma update_panel_queries_post_witness :
  update_panel_queries sample_panels (u "database.json")
  = Some sample_panels_updated ∧
  elementwise panel_post sample_panels sample_panels_updated.
Proof.
  split; [vm_compute; reflexivity|].
  apply (update_panel_queries_post sample_panels (u "database.json")
           sample_panels_updated).
  vm_compute. reflexivity.
Defined.
(** *** The further properties at examples *)

Lemma update_expr_brace_witness :
  (123%N ∉ u "birthday_scheduler_queue_depth") ∧
  needs_filter (u "birthday_scheduler_queue_depth" ++ u "{" ++ uq "queue='dlq'}")
  = true ∧
  update_expr
    (JStr (u "birthday_scheduler_queue_depth" ++ u "{" ++ uq "queue='dlq'}"))
  = Some (replace_window
            (u "birthday_scheduler_queue_depth" ++
             uq "{namespace='$namespace', instance=~'$instance', " ++
             uq "queue='dlq'}")).
Proof.
  split; [by_compute|]. split; [vm_compute; reflexivity|].
  apply (update_expr_brace (u "birthday_scheduler_queue_depth")
           (uq "queue='dlq'}")).
  - by_compute.
  - vm_compute. reflexivity.
Defined.

Lemma update_expr_unrelated_witness :
  (contains (u "namespace=") (u "rate(up[1m])") = true ∨
   contains (u "birthday_scheduler_") (u "rate(up[1m])") = false) ∧
  ¬ infix_of (u "[5m]") (u "rate(up[1m])") ∧
  update_expr (JStr (u "rate(up[1m])")) = Some (u "rate(up[1m])").
Proof.
  assert (¬ infix_of (u "[5m]") (u "rate(up[1m])")) as Hw.
  { apply contains_false. vm_compute. reflexivity. }
  split; [right; vm_compute; reflexivity|]. split; [exact Hw|].
  apply (update_expr_unrelated (u "rate(up[1m])")).
  - right. vm_compute. reflexivity.
  - exact Hw.
Defined.

Lemma update_expr_namespace_witness :
  contains (u "birthday_scheduler_") (u "sum(birthday_scheduler_queue_depth)")
  = true ∧
  ∃ e', update_expr (JStr (u "sum(birthday_scheduler_queue_depth)")) = Some e' ∧
    contains (u "namespace=") e' = true ∧
    contains (u "[5m]") e' = false.
Proof.
  split; [vm_compute; reflexivity|].
  apply (update_expr_namespace (u "sum(birthday_scheduler_queue_depth)")).
  vm_compute. reflexivity.
Defined.

Lemma update_expr_call_witness :
  (needs_filter (u "rate" ++ u "(" ++ u "birthday_scheduler_api_requests_total"
                 ++ u "[" ++ u "5m])") = true ∧
   (123%N ∉ u "rate" ++ u "(" ++ u "birthday_scheduler_api_requests_total"
            ++ u "[" ++ u "5m])") ∧
   (91%N ∉ u "rate") ∧
   (91%N ∉ u "birthday_scheduler_api_requests_total") ∧
   (40%N ∉ u "birthday_scheduler_api_requests_total") ∧
   u "birthday_scheduler_api_requests_total" ≠ [] ∧
   strip (u "birthday_scheduler_api_requests_total")
   = u "birthday_scheduler_api_requests_total" ∧
   ∀ x y,
     u "rate" ++ u "(" ++ u "birthday_scheduler_api_requests_total"
       ++ u "[" ++ u "5m])"
     = x ++ u "birthday_scheduler_api_requests_total" ++ y →
     x = u "rate" ++ u "(") ∧
  update_expr
    (JStr (u "rate" ++ u "(" ++ u "birthday_scheduler_api_requests_total"
           ++ u "[" ++ u "5m])"))
  = Some (replace_window
            (u "rate" ++ u "(" ++ u "birthday_scheduler_api_requests_total" ++
             uq "{namespace='$namespace', instance=~'$instance'}" ++
             u "[" ++ u "5m])")).
Proof.
  assert (∀ x y,
            u "rate" ++ u "(" ++ u "birthday_scheduler_api_requests_total"
              ++ u "[" ++ u "5m])"
            = x ++ u "birthday_scheduler_api_requests_total" ++ y →
            x = u "rate" ++ u "(") as Honly.
  { apply (positions_only_prefix _ _ (u "rate" ++ u "(")
             (u "birthday_scheduler_api_requests_total" ++ u "[" ++ u "5m])")).
    - vm_compute. reflexivity.
    - by rewrite <- app_assoc. }
  split.
  - repeat split; try by_compute; try (vm_compute; reflexivity). exact Honly.
  - apply (update_expr_call (u "rate")
             (u "birthday_scheduler_api_requests_total") (u "5m])"));
      try by_compute; try (vm_compute; reflexivity). exact Honly.
Defined.

Lemma main_again_witness :
  ∃ fs' out,
    main (Some (files sample_world)) = (0%Z, Some fs', out) ∧
    main (Some fs') = (0%Z, Some fs', out).
Proof.
  eexists _, _. split; [reflexivity|].
  apply (main_again (files sample_world)). reflexivity.
Defined.

Lemma enhance_last_configuration_witness :
  ∃ data2,
    enhance (u "database.json") database_config sample_document
    = Some sample_enhanced ∧
    enhance (u "database.json") security_config sample_enhanced
    = Some data2 ∧
    enhance (u "database.json") security_config sample_document
    = Some data2.
Proof.
  eexists. split; [vm_compute; reflexivity|]. split.
  - vm_compute. reflexivity.
  - apply (enhance_last_configuration (u "database.json") database_config
             security_config sample_document sample_enhanced);
      vm_compute; reflexivity.
Defined.

Lemma enhance_key_order_witness :
  enhance (u "database.json") database_config sample_document
  = Some sample_enhanced ∧
  ∃ dashboard dashboard',
    dashboard_of sample_document = Some dashboard ∧
    py_getitem sample_enhanced (u "dashboard") = Some dashboard' ∧
    keys sample_enhanced
    = keys sample_document ++
      filter (λ k, k ∉ keys sample_document) [u "dashboard"] ∧
    keys dashboard'
    = keys dashboard ++
      filter (λ k, k ∉ keys dashboard)
        [u "templating"; u "links"; u "annotations"].
Proof.
  split; [vm_compute; reflexivity|].
  apply (enhance_key_order (u "database.json") database_config
           sample_document sample_enhanced).
  vm_compute. reflexivity.
Defined.

Lemma enhance_keeps_shape_witness :
  enhance (u "database.json") database_config sample_document
  = Some sample_enhanced ∧
  document_ok sample_document = true ∧
  document_ok sample_enhanced = true.
Proof.
  split; [vm_compute; reflexivity|]. split; [vm_compute; reflexivity|].
  apply (enhance_keeps_shape (u "database.json") database_config
           sample_document sample_enhanced); vm_compute; reflexivity.
Defined.
End Examples.
